(** * Decentralization metrics of avalanche-gini: a shallow embedding

    The statistical core of the repository (hist/analyze.py, stakes.py,
    hist/nakamoto_analysis.py): the entity grouper, the GINI and Nakamoto
    coefficients, the quarterly date selection and the seeded reference
    generators.

    Numbers.  Stake weights are integers in the JSON snapshots (Python
    [int], here [Z]).  The metrics convert them to float64; the embedding
    idealises float64 as exact rationals [Q], with the one non-finite case
    the code can reach (a division by zero, NaN or inf in numpy) made
    explicit as [None]. *)

From Stdlib Require Import QArith Qabs Lqa ZArith Lia List Bool Sorting.Sorted.
From Stdlib Require Import Permutation String Ascii.
From stdpp Require Import base option list strings gmap.
Import ListNotations.

Local Open Scope Q_scope.
#[local] Set Warnings "-clear-no-such-hyp".

(** ** Python values the grouping works on *)

Module Py.

(** Exceptions the modelled code raises. *)
Inductive exn :=
| KeyError (key : string)
| IndexError (msg : string)
| ValueError (msg : string).

Inductive result (A : Type) :=
| Ok (a : A)
| Raise (e : exn).
Arguments Ok {A} a.
Arguments Raise {A} e.

Definition bind {A B} (r : result A) (k : A -> result B) : result B :=
  match r with
  | Ok a => k a
  | Raise e => Raise e
  end.

(** [d[key]] on a JSON object: the field, or [KeyError]. *)
Definition item {A} (key : string) (field : option A) : result A :=
  match field with
  | Some a => Ok a
  | None => Raise (KeyError key)
  end.

(** A [dict]: keys in insertion order, each at most once. *)
Section Dict.
Context {K V : Type} `{EqDecision K}.

Definition dict := list (K * V).

Fixpoint get (k : K) (d : dict) : option V :=
  match d with
  | [] => None
  | (k', v) :: d' => if decide (k = k') then Some v else get k d'
  end.

(** [d[k] = v]: in place when the key is there, else at the end. *)
Fixpoint set (k : K) (v : V) (d : dict) : dict :=
  match d with
  | [] => [(k, v)]
  | (k', v') :: d' =>
      if decide (k = k') then (k', v) :: d' else (k', v') :: set k v d'
  end.

Definition contains (k : K) (d : dict) : bool :=
  match get k d with
  | Some _ => true
  | None => false
  end.

Definition keys (d : dict) : list K := map fst d.
Definition values (d : dict) : list V := map snd d.
End Dict.
Arguments dict K V : clear implicits.

(** A [collections.Counter] keyed by strings. *)
Definition counter := gmap string nat.

Definition count_up (key : string) (c : counter) : counter :=
  <[key := S (default 0%nat (c !! key))]> c.

(** Truth value of an optional string as [d.get(key)] gives it: absent
    and empty are false. *)
Definition truthy (o : option string) : option string :=
  match o with
  | Some s => if decide (s = EmptyString) then None else Some s
  | None => None
  end.

End Py.

Notation "x <- c ;; k" := (Py.bind c (fun x => k))
  (at level 20, c at level 99, k at level 200, only parsing).

(** ** numpy primitives used by the metrics *)

Module Numpy.

(** [np.sum] of a one-dimensional array. *)
Definition sum (a : list Q) : Q := fold_right Qplus 0 a.

(** Insertion into an ascending array. *)
Fixpoint insert (x : Q) (a : list Q) : list Q :=
  match a with
  | [] => [x]
  | y :: a' => if Qle_bool x y then x :: a else y :: insert x a'
  end.

(** [np.sort]: the values in ascending order. *)
Definition sort (a : list Q) : list Q := fold_right insert [] a.

(** [np.cumsum]: running totals, [acc] being the total so far. *)
Fixpoint cumsum_from (acc : Q) (a : list Q) : list Q :=
  match a with
  | [] => []
  | x :: a' => (acc + x) :: cumsum_from (acc + x) a'
  end.

Definition cumsum (a : list Q) : list Q := cumsum_from 0 a.

Definition Qlt_bool (x y : Q) : bool := negb (Qle_bool y x).

(** [np.searchsorted(arr, key, side='left')]: numpy's binary search
    [while (min_idx < max_idx) { mid = min_idx + ((max_idx - min_idx) >> 1);
    if (arr[mid] < key) min_idx = mid + 1; else max_idx = mid; }].
    The fuel bounds the number of iterations. *)
Fixpoint binsearch_left (fuel : nat) (arr : list Q) (key : Q)
    (min_idx max_idx : nat) : nat :=
  match fuel with
  | O => min_idx
  | S fuel' =>
      if (min_idx <? max_idx)%nat then
        let mid_idx := (min_idx + (max_idx - min_idx) / 2)%nat in
        if Qlt_bool (nth mid_idx arr 0) key
        then binsearch_left fuel' arr key (mid_idx + 1)%nat max_idx
        else binsearch_left fuel' arr key min_idx mid_idx
      else min_idx
  end.

Definition searchsorted_left (arr : list Q) (key : Q) : nat :=
  binsearch_left (length arr) arr key 0 (length arr).

(** Float division.  A zero divisor gives NaN or an infinity in numpy
    (with a warning, not an exception); both are [None] here, and every
    later float operation keeps them. *)
Definition fdiv (x y : Q) : option Q :=
  if Qeq_bool y 0 then None else Some (x / y).

Definition of_nat (n : nat) : Q := inject_Z (Z.of_nat n).

(** [np.mean] of a one-dimensional array: the sum over the size. *)
Definition mean (a : list Q) : option Q := fdiv (sum a) (of_nat (length a)).

(** [np.subtract.outer(a, b)]: the matrix of all [a[i] - b[j]]. *)
Definition subtract_outer (a b : list Q) : list (list Q) :=
  map (fun x => map (fun y => x - y) b) a.

(** [np.abs] of a matrix. *)
Definition abs2 (m : list (list Q)) : list (list Q) := map (map Qabs) m.

(** [m.mean()] of a matrix: the sum of all entries over their number. *)
Definition mean2 (m : list (list Q)) : option Q :=
  fdiv (sum (concat m)) (of_nat (length (concat m))).

(** *** Float scalars and arrays that may hold NaN or inf

    A float is [None] when it is not finite; an array is [None] when its
    entries are not finite, which in the code modelled here happens to
    all entries at once (a nonempty array divided by a zero scalar). *)
Definition float := option Q.
Definition array := option (list Q).

(** [a / s] for an array and a scalar. *)
Definition adiv (a : array) (s : float) : array :=
  match a, s with
  | Some [], _ => Some []
  | Some l, Some q => if Qeq_bool q 0 then None else Some (map (fun x => x / q) l)
  | _, _ => None
  end.

(** [a * s] for an array and a scalar. *)
Definition amul (a : array) (s : float) : array :=
  match a, s with
  | Some [], _ => Some []
  | Some l, Some q => Some (map (fun x => x * q) l)
  | _, _ => None
  end.

Definition asum (a : array) : float := option_map sum a.
Definition asort (a : array) : array := option_map sort a.
Definition acumsum (a : array) : array := option_map cumsum a.

Definition max_list (x : Q) (l : list Q) : Q :=
  fold_left (fun m y => if Qle_bool m y then y else m) l x.

(** [np.max]: [ValueError] on an array of size zero. *)
Definition amax (a : array) : Py.result float :=
  match a with
  | Some [] =>
      Py.Raise (Py.ValueError "zero-size array to reduction operation maximum")
  | Some (x :: l) => Py.Ok (Some (max_list x l))
  | None => Py.Ok None
  end.

End Numpy.

(** ** [datetime.strptime(d, '%Y-%m-%d')] *)

Module Datetime.

Record datetime := { year : Z; month : Z; day : Z }.

Definition digit (c : ascii) : option Z :=
  let n := nat_of_ascii c in
  if (48 <=? n)%nat && (n <=? 57)%nat then Some (Z.of_nat n - 48)%Z else None.

(** An alternative of a directive: the value it reads at the head of
    the input and the input left, when it matches. *)
Definition alternative := list ascii -> option (Z * list ascii).

Definition two_digits (first second : Z -> bool) : alternative := fun l =>
  match l with
  | a :: b :: rest =>
      match digit a, digit b with
      | Some x, Some y =>
          if first x && second y then Some (10 * x + y, rest)%Z else None
      | _, _ => None
      end
  | _ => None
  end.

Definition one_digit (only : Z -> bool) : alternative := fun l =>
  match l with
  | a :: rest =>
      match digit a with
      | Some x => if only x then Some (x, rest) else None
      | None => None
      end
  | _ => None
  end.

Definition space_digit (only : Z -> bool) : alternative := fun l =>
  match l with
  | " "%char :: rest => one_digit only rest
  | _ => None
  end.

Definition any (x : Z) : bool := true.
Definition exactly (n : Z) (x : Z) : bool := (x =? n)%Z.
Definition at_most (n : Z) (x : Z) : bool := (x <=? n)%Z.
Definition at_least (n : Z) (x : Z) : bool := (n <=? x)%Z.
Definition between (n m : Z) (x : Z) : bool := (n <=? x)%Z && (x <=? m)%Z.

(** [%m] is [1[0-2]|0[1-9]|[1-9]] and [%d] is
    [3[0-1]|[1-2]\d|0[1-9]|[1-9]| [1-9]], tried in this order. *)
Definition month_directive : list alternative :=
  [two_digits (exactly 1) (at_most 2); two_digits (exactly 0) (at_least 1); one_digit (at_least 1)].

Definition day_directive : list alternative :=
  [two_digits (exactly 3) (at_most 1); two_digits (between 1 2) any;
   two_digits (exactly 0) (at_least 1); one_digit (at_least 1); space_digit (at_least 1)].

(** The first of the alternatives whose match lets the rest of the
    pattern, [continue], match too. *)
Fixpoint first_match {A} (alts : list alternative) (l : list ascii)
    (continue : Z -> list ascii -> option A) : option A :=
  match alts with
  | [] => None
  | alt :: alts' =>
      match alt l with
      | Some (x, rest) =>
          match continue x rest with
          | Some r => Some r
          | None => first_match alts' l continue
          end
      | None => first_match alts' l continue
      end
  end.

(** [%Y] is [\d\d\d\d]. *)
Definition year_directive (l : list ascii) : option (Z * list ascii) :=
  match l with
  | a :: b :: c :: d :: rest =>
      match digit a, digit b, digit c, digit d with
      | Some x, Some y, Some z, Some w =>
          Some (1000 * x + 100 * y + 10 * z + w, rest)%Z
      | _, _, _, _ => None
      end
  | _ => None
  end.

Definition dash {A} (l : list ascii) (continue : list ascii -> option A) : option A :=
  match l with
  | "-"%char :: rest => continue rest
  | _ => None
  end.

(** The match of the pattern at the start of the input: the three
    values and the input left over. *)
Definition format_match (l : list ascii) : option (Z * Z * Z * list ascii) :=
  match year_directive l with
  | Some (y, rest) =>
      dash rest (fun rest =>
        first_match month_directive rest (fun m rest =>
          dash rest (fun rest =>
            first_match day_directive rest (fun d rest =>
              Some (y, m, d, rest)))))
  | None => None
  end.

Definition is_leap (y : Z) : bool :=
  ((y mod 4 =? 0) && (negb (y mod 100 =? 0) || (y mod 400 =? 0)))%Z.

Definition days_in_month (y m : Z) : Z :=
  if (m =? 2)%Z then (if is_leap y then 29 else 28)%Z
  else if ((m =? 4) || (m =? 6) || (m =? 9) || (m =? 11))%Z then 30%Z
  else 31%Z.

(** [strptime]: [ValueError] when the string does not match the format,
    when input is left over, and when the values are no date (year 0, a
    day the month does not have). *)
Definition strptime (d : string) : Py.result datetime :=
  match format_match (list_ascii_of_string d) with
  | None => Py.Raise (Py.ValueError "time data does not match format")
  | Some (y, m, dd, rest) =>
      match rest with
      | _ :: _ => Py.Raise (Py.ValueError "unconverted data remains")
      | [] =>
          if ((1 <=? y) && (dd <=? days_in_month y m))%Z
          then Py.Ok {| year := y; month := m; day := dd |}
          else Py.Raise (Py.ValueError "day is out of range for month")
      end
  end.

End Datetime.

(** ** Validator records of the JSON snapshots *)

(** The [id] field is a string or an array of strings. *)
Inductive id_value :=
| IdStr (s : string)
| IdList (l : list string).

(** A validator object; [None] is an absent key.  The [geo_*] fields stand
    for the nested [geo.country.code], [geo.asnum.name], [geo.city.name] and
    [geo.city.region] of the extended snapshots. *)
Record validator := {
  v_id : option id_value;
  v_rewardAddresses : option (list string);
  v_weight : option Z;
  v_delegatorWeight : option Z;
  v_delegatedWeight : option Z;
  v_totalWeight : option Z;
  v_geo_country_code : option string;
  v_geo_asnum_name : option string;
  v_geo_city_name : option string;
  v_geo_city_region : option string;
  v_version : option string
}.

(** [frozenset(addresses)]. *)
Definition frozenset (addresses : list string) : gset string :=
  list_to_set addresses.

(** [v.get('delegatorWeight', v.get('delegatedWeight', 0))]. *)
Definition get_delegator_weight (v : validator) : Z :=
  match v_delegatorWeight v with
  | Some d => d
  | None => default 0%Z (v_delegatedWeight v)
  end.

(** ** hist/analyze.py *)

Module Analyze.

(** [nakamoto(weights, threshold)]. *)
Definition nakamoto (weights : list Q) (threshold : Q) : nat :=
  if (length weights =? 0)%nat then 0%nat
  else
    let total := Numpy.sum weights in
    let sorted_weights := rev (Numpy.sort weights) in
    let cumsum := Numpy.cumsum sorted_weights in
    let target := total * threshold in
    let idx := Numpy.searchsorted_left cumsum target in
    (idx + 1)%nat.

(** [gini(a)]. *)
Definition gini (a : list Q) : option Q :=
  if (length a =? 0)%nat then Some 0
  else
    mad ← Numpy.mean2 (Numpy.abs2 (Numpy.subtract_outer a a));
    m ← Numpy.mean a;
    q ← Numpy.fdiv mad m;
    Some (q * (1 # 2)).

(** The aggregate [by_address] keeps per reward-address set. *)
Record entity := {
  e_id : gset string;
  e_rewardAddresses : gset string;
  e_weight : Z;
  e_delegatorWeight : Z;
  e_totalWeight : Z
}.

Definition new_entity : entity :=
  {| e_id := ∅; e_rewardAddresses := ∅; e_weight := 0;
     e_delegatorWeight := 0; e_totalWeight := 0 |}.

Definition groups := Py.dict (gset string) entity.

(** [vid if isinstance(vid, list) else [vid]]. *)
Definition id_list (vid : id_value) : list string :=
  match vid with
  | IdList l => l
  | IdStr s => [s]
  end.

(** The updates of [g] in one turn of the loop. *)
Definition absorb (g : entity) (v : validator) (addresses : list string) :
    Py.result entity :=
  vid <- Py.item "id" (v_id v) ;;
  let g_id := e_id g ∪ list_to_set (id_list vid) in
  let g_rewardAddresses := e_rewardAddresses g ∪ list_to_set addresses in
  w <- Py.item "weight" (v_weight v) ;;
  let g_weight := (e_weight g + w)%Z in
  let g_delegatorWeight := (e_delegatorWeight g + get_delegator_weight v)%Z in
  tw <- Py.item "totalWeight" (v_totalWeight v) ;;
  let g_totalWeight := (e_totalWeight g + tw)%Z in
  Py.Ok {| e_id := g_id; e_rewardAddresses := g_rewardAddresses;
           e_weight := g_weight; e_delegatorWeight := g_delegatorWeight;
           e_totalWeight := g_totalWeight |}.

(** One turn of [for v in validators]. *)
Definition by_address_step (gs : groups) (v : validator) : Py.result groups :=
  addresses <- Py.item "rewardAddresses" (v_rewardAddresses v) ;;
  let key := frozenset addresses in
  let gs := if Py.contains key gs then gs else Py.set key new_entity gs in
  g <- Py.item "groups[key]" (Py.get key gs) ;;
  g <- absorb g v addresses ;;
  Py.Ok (Py.set key g gs).

Fixpoint by_address_loop (validators : list validator) (gs : groups) :
    Py.result groups :=
  match validators with
  | [] => Py.Ok gs
  | v :: rest => gs <- by_address_step gs v ;; by_address_loop rest gs
  end.

(** [by_address(validators)]. *)
Definition by_address (validators : list validator) : Py.result (list entity) :=
  gs <- by_address_loop validators [] ;;
  Py.Ok (Py.values gs).

(** *** Quarterly dates *)

(** [(year, quarter)] of a date. *)
Definition quarter_of (dt : Datetime.datetime) : Z * Z :=
  (Datetime.year dt, (Datetime.month dt - 1) / 3 + 1)%Z.

Definition quarters := Py.dict (Z * Z) (list string).

(** One turn of [for d in dates]. *)
Definition quarters_step (qs : quarters) (d : string) : Py.result quarters :=
  dt <- Datetime.strptime d ;;
  let key := quarter_of dt in
  let qs := if Py.contains key qs then qs else Py.set key [] qs in
  l <- Py.item "quarters[key]" (Py.get key qs) ;;
  Py.Ok (Py.set key (l ++ [d]) qs).

Fixpoint quarters_loop (dates : list string) (qs : quarters) : Py.result quarters :=
  match dates with
  | [] => Py.Ok qs
  | d :: rest => qs <- quarters_step qs d ;; quarters_loop rest qs
  end.

(** The order of the tuples [(year, quarter)]. *)
Definition tuple_leb (a b : Z * Z) : bool :=
  ((fst a <? fst b) || ((fst a =? fst b) && (snd a <=? snd b)))%Z.

Fixpoint insert_key (k : Z * Z) (ks : list (Z * Z)) : list (Z * Z) :=
  match ks with
  | [] => [k]
  | k' :: ks' => if tuple_leb k k' then k :: ks else k' :: insert_key k ks'
  end.

(** [sorted(keys)]. *)
Definition sorted (ks : list (Z * Z)) : list (Z * Z) :=
  fold_right insert_key [] ks.

(** [l[-1]]. *)
Definition last_item (l : list string) : Py.result string :=
  match last l with
  | Some x => Py.Ok x
  | None => Py.Raise (Py.IndexError "list index out of range")
  end.

(** [for key in sorted(quarters.keys()): quarterly.append(quarters[key][-1])]. *)
Fixpoint pick_loop (ks : list (Z * Z)) (qs : quarters) (quarterly : list string) :
    Py.result (list string) :=
  match ks with
  | [] => Py.Ok quarterly
  | key :: rest =>
      l <- Py.item "quarters[key]" (Py.get key qs) ;;
      x <- last_item l ;;
      pick_loop rest qs (quarterly ++ [x])
  end.

(** [get_quarterly_dates(dates)]. *)
Definition get_quarterly_dates (dates : list string) : Py.result (list string) :=
  qs <- quarters_loop dates [] ;;
  pick_loop (sorted (Py.keys qs)) qs [].

End Analyze.

(** ** stakes.py *)

Module Stakes.

(** [gini(a)]: the same quotient, without the case for length 0. *)
Definition gini (a : list Q) : option Q :=
  mad ← Numpy.mean2 (Numpy.abs2 (Numpy.subtract_outer a a));
  m ← Numpy.mean a;
  q ← Numpy.fdiv mad m;
  Some (q * (1 # 2)).


(** The aggregate of [by_address]; this script names the delegated stake
    [delegatedWeight]. *)
Record entity := {
  e_id : gset string;
  e_rewardAddresses : gset string;
  e_weight : Z;
  e_delegatedWeight : Z;
  e_totalWeight : Z
}.

Definition new_entity : entity :=
  {| e_id := ∅; e_rewardAddresses := ∅; e_weight := 0;
     e_delegatedWeight := 0; e_totalWeight := 0 |}.

(** The dict bound once to the default argument [groups={}] and shared by
    every call that does not pass [groups]. *)
Definition groups := Py.dict (gset string) entity.

Definition set_id (g : entity) (ids : gset string) : entity :=
  {| e_id := ids; e_rewardAddresses := e_rewardAddresses g;
     e_weight := e_weight g; e_delegatedWeight := e_delegatedWeight g;
     e_totalWeight := e_totalWeight g |}.

Definition set_rewardAddresses (g : entity) (a : gset string) : entity :=
  {| e_id := e_id g; e_rewardAddresses := a;
     e_weight := e_weight g; e_delegatedWeight := e_delegatedWeight g;
     e_totalWeight := e_totalWeight g |}.

Definition set_weight (g : entity) (w : Z) : entity :=
  {| e_id := e_id g; e_rewardAddresses := e_rewardAddresses g;
     e_weight := w; e_delegatedWeight := e_delegatedWeight g;
     e_totalWeight := e_totalWeight g |}.

Definition set_delegatedWeight (g : entity) (w : Z) : entity :=
  {| e_id := e_id g; e_rewardAddresses := e_rewardAddresses g;
     e_weight := e_weight g; e_delegatedWeight := w;
     e_totalWeight := e_totalWeight g |}.

Definition set_totalWeight (g : entity) (w : Z) : entity :=
  {| e_id := e_id g; e_rewardAddresses := e_rewardAddresses g;
     e_weight := e_weight g; e_delegatedWeight := e_delegatedWeight g;
     e_totalWeight := w |}.

(** [v['id'] if type(v['id']) == list else [v['id']]]. *)
Definition id_list (vid : id_value) : list string :=
  match vid with
  | IdList l => l
  | IdStr s => [s]
  end.

(** A mutation of [g] shows in the shared dict at once when [g] is the
    object stored under [k]; a [g] made by the default of [groups.get]
    is stored only by the final [groups[k] = g]. *)
Definition mutate (stored : bool) (k : gset string) (g : entity) (gs : groups) :
    groups :=
  if stored then Py.set k g gs else gs.

(** One turn of the loop: the outcome and the shared dict after it. *)
Definition by_address_step (v : validator) (gs : groups) :
    Py.result unit * groups :=
  match v_rewardAddresses v with
  | None => (Py.Raise (Py.KeyError "rewardAddresses"), gs)
  | Some addresses =>
  let k := frozenset addresses in
  let stored := Py.contains k gs in
  let g := default new_entity (Py.get k gs) in
  match v_id v with
  | None => (Py.Raise (Py.KeyError "id"), gs)
  | Some vid =>
  let g := set_id g (e_id g ∪ list_to_set (id_list vid)) in
  let gs := mutate stored k g gs in
  let g := set_rewardAddresses g (e_rewardAddresses g ∪ list_to_set addresses) in
  let gs := mutate stored k g gs in
  match v_weight v with
  | None => (Py.Raise (Py.KeyError "weight"), gs)
  | Some w =>
  let g := set_weight g (e_weight g + w)%Z in
  let gs := mutate stored k g gs in
  match v_delegatedWeight v with
  | None => (Py.Raise (Py.KeyError "delegatedWeight"), gs)
  | Some d =>
  let g := set_delegatedWeight g (e_delegatedWeight g + d)%Z in
  let gs := mutate stored k g gs in
  match v_totalWeight v with
  | None => (Py.Raise (Py.KeyError "totalWeight"), gs)
  | Some tw =>
  let g := set_totalWeight g (e_totalWeight g + tw)%Z in
  (Py.Ok tt, Py.set k g gs)
  end end end end end.

Fixpoint by_address_loop (validators : list validator) (gs : groups) :
    Py.result unit * groups :=
  match validators with
  | [] => (Py.Ok tt, gs)
  | v :: rest =>
      match by_address_step v gs with
      | (Py.Ok _, gs') => by_address_loop rest gs'
      | (Py.Raise e, gs') => (Py.Raise e, gs')
      end
  end.

(** [by_address(validators)] with [groups] left to its default: [gs] is
    the content of the shared dict at the call, the result comes with its
    content after the call.  The entities returned are the values of the
    dict at the return. *)
Definition by_address (validators : list validator) (gs : groups) :
    Py.result (list entity) * groups :=
  match by_address_loop validators gs with
  | (Py.Ok _, gs') => (Py.Ok (Py.values gs'), gs')
  | (Py.Raise e, gs') => (Py.Raise e, gs')
  end.

(** The shared dict when the module is loaded. *)
Definition groups_default : groups := [].

(** Two calls in a row, as [load] makes them for two snapshot files. *)
Definition by_address_twice (first second : list validator) :
    Py.result (list entity) * Py.result (list entity) :=
  let '(r1, gs1) := by_address first groups_default in
  let '(r2, _) := by_address second gs1 in
  (r1, r2).

(** *** Reference distributions *)

(** The dict a generator returns. *)
Record distribution := {
  pdf : Numpy.array;
  pdf_normed : Numpy.array;
  cdf_normed : Numpy.array
}.

(** [args.seed if args.seed else None]: the option [--seed] is an [int]
    (1 unless given), and 0 is false. *)
Definition seed_argument (args_seed : Z) : option Z :=
  if decide (args_seed = 0%Z) then None else Some args_seed.

Section Generators.

(** numpy's generator: its states, [default_rng(seed=s)] for an integer
    seed ([ValueError] when numpy refuses the seed, as it does a negative
    one), and the array [random.uniform(size=n)] draws from a state. *)
Variable bit_generator : Type.
Variable seeded : Z -> Py.result bit_generator.
Variable uniform : bit_generator -> nat -> list Q.

(** [default_rng(seed)]; without a seed the state comes from entropy
    of the operating system, fresh at every call: [os_entropy]. *)
Definition prng (seed : option Z) (os_entropy : bit_generator) :
    Py.result bit_generator :=
  match seed with
  | Some s => seeded s
  | None => Py.Ok os_entropy
  end.

(** [gini_33(a)]; [args_seed] is the global [args.seed]. *)
Definition gini_33 (args_seed : Z) (os_entropy : bit_generator) (a : list Q) :
    Py.result distribution :=
  random <- prng (seed_argument args_seed) os_entropy ;;
  let size := Some (Numpy.of_nat (length a)) in
  let uni_a := Numpy.adiv (Some (uniform random (length a))) size in
  m <- Numpy.amax uni_a ;;
  let uni_a := Numpy.adiv uni_a m in
  let cum_a := Numpy.acumsum (Numpy.asort uni_a) in
  let normed :=
    Numpy.amul (Numpy.adiv uni_a (Numpy.asum uni_a)) (Some (Numpy.sum a)) in
  max_cum <- Numpy.amax cum_a ;;
  max_a <- Numpy.amax (Some a) ;;
  Py.Ok {| pdf := uni_a; pdf_normed := normed;
           cdf_normed := Numpy.amul (Numpy.adiv cum_a max_cum) max_a |}.

(** [pdf_a(b)(a)]: the log-logistic density [b*a^(b-1) / (1+a^b)^2] on
    every entry; the entries are not finite where the divisor is zero. *)
Definition pdf_a (b : Z) (a : Numpy.array) : Numpy.array :=
  match a with
  | Some l =>
      if forallb (fun x => negb (Qeq_bool ((1 + x ^ b) ^ 2) 0)) l
      then Some (map (fun x => inject_Z b * x ^ (b - 1) / (1 + x ^ b) ^ 2) l)
      else None
  | None => None
  end.

(** [gini_66(a)]. *)
Definition gini_66 (args_seed : Z) (os_entropy : bit_generator) (a : list Q) :
    Py.result distribution :=
  random <- prng (seed_argument args_seed) os_entropy ;;
  let size := Some (Numpy.of_nat (length a)) in
  let uni_a := Numpy.adiv (Some (uniform random (length a))) size in
  let log_a := pdf_a 5 (Numpy.asort uni_a) in
  m <- Numpy.amax log_a ;;
  let log_a := Numpy.adiv log_a m in
  let cum_a := Numpy.acumsum log_a in
  let normed :=
    Numpy.amul (Numpy.adiv log_a (Numpy.asum log_a)) (Some (Numpy.sum a)) in
  max_cum <- Numpy.amax cum_a ;;
  max_a <- Numpy.amax (Some a) ;;
  Py.Ok {| pdf := log_a; pdf_normed := normed;
           cdf_normed := Numpy.amul (Numpy.adiv cum_a max_cum) max_a |}.

End Generators.

End Stakes.

(** ** hist/nakamoto_analysis.py *)

Module NakamotoAnalysis.

(** The aggregate of [by_address_ext]: the sums, the validators kept,
    and the counters of the GeoIP metadata. *)
Record entity := {
  e_id : gset string;
  e_rewardAddresses : gset string;
  e_weight : Z;
  e_delegatorWeight : Z;
  e_totalWeight : Z;
  e_validators : list validator;
  e_countries : Py.counter;
  e_asns : Py.counter;
  e_cities : Py.counter;
  e_versions : Py.counter
}.

Definition new_entity : entity :=
  {| e_id := ∅; e_rewardAddresses := ∅; e_weight := 0;
     e_delegatorWeight := 0; e_totalWeight := 0; e_validators := [];
     e_countries := ∅; e_asns := ∅; e_cities := ∅; e_versions := ∅ |}.

Definition groups := Py.dict (gset string) entity.

Definition count_if (key : option string) (c : Py.counter) : Py.counter :=
  match Py.truthy key with
  | Some k => Py.count_up k c
  | None => c
  end.

(** The key of the [cities] counter: ["{name}, {region}"]. *)
Definition city_key (v : validator) : option string :=
  match Py.truthy (v_geo_city_name v) with
  | Some name =>
      Some (name ++ ", " ++ default EmptyString (v_geo_city_region v))%string
  | None => None
  end.

Section ByAddressExt.

(** Python's [str] of a list of strings. *)
Variable str : list string -> string.

(** [vid if isinstance(vid, str) else str(vid)] for
    [vid = v.get('id', '')]. *)
Definition id_str (vid : option id_value) : string :=
  match vid with
  | None => EmptyString
  | Some (IdStr s) => s
  | Some (IdList l) => str l
  end.

(** The updates of [g] in one turn of the loop. *)
Definition absorb (g : entity) (v : validator) : entity :=
  {| e_id := e_id g ∪ {[ id_str (v_id v) ]};
     e_rewardAddresses :=
       e_rewardAddresses g ∪ list_to_set (default [] (v_rewardAddresses v));
     e_weight := e_weight g + default 0%Z (v_weight v);
     e_delegatorWeight := e_delegatorWeight g + get_delegator_weight v;
     e_totalWeight := e_totalWeight g + default 0%Z (v_totalWeight v);
     e_validators := e_validators g ++ [v];
     e_countries := count_if (v_geo_country_code v) (e_countries g);
     e_asns := count_if (v_geo_asnum_name v) (e_asns g);
     e_cities := count_if (city_key v) (e_cities g);
     e_versions := count_if (v_version v) (e_versions g) |}%Z.

(** One turn of [for v in validators]. *)
Definition by_address_ext_step (gs : groups) (v : validator) : Py.result groups :=
  let key := frozenset (default [] (v_rewardAddresses v)) in
  if decide (key = ∅) then Py.Ok gs
  else
    let gs := if Py.contains key gs then gs else Py.set key new_entity gs in
    g <- Py.item "groups[key]" (Py.get key gs) ;;
    Py.Ok (Py.set key (absorb g v) gs).

Fixpoint by_address_ext_loop (validators : list validator) (gs : groups) :
    Py.result groups :=
  match validators with
  | [] => Py.Ok gs
  | v :: rest => gs <- by_address_ext_step gs v ;; by_address_ext_loop rest gs
  end.

(** [by_address_ext(validators)]. *)
Definition by_address_ext (validators : list validator) :
    Py.result (list entity) :=
  gs <- by_address_ext_loop validators [] ;;
  Py.Ok (Py.values gs).

End ByAddressExt.

(** *** Quarterly dates *)

Definition is_digit (c : ascii) : bool :=
  match Datetime.digit c with
  | Some _ => true
  | None => false
  end.

(** [re.match(r'^\d{4}-\d{2}-\d{2}$', d)]; the [$] also matches before a
    newline that ends the name. *)
Definition date_pattern (d : string) : bool :=
  match list_ascii_of_string d with
  | [y1; y2; y3; y4; "-"; m1; m2; "-"; d1; d2]%char
  | [y1; y2; y3; y4; "-"; m1; m2; "-"; d1; d2; "010"]%char =>
      forallb is_digit [y1; y2; y3; y4; m1; m2; d1; d2]
  | _ => false
  end.

Fixpoint insert_name (d : string) (names : list string) : list string :=
  match names with
  | [] => [d]
  | d' :: names' =>
      if String.leb d d' then d :: names else d' :: insert_name d names'
  end.

(** [sorted(os.listdir(JSON_DIR))]. *)
Definition sorted_names (listdir : list string) : list string :=
  fold_right insert_name [] listdir.

(** The dates with extended data: [listdir] is what [os.listdir(JSON_DIR)]
    returns, [has_ext d] whether [validators-ext.json] exists under [d]. *)
Definition dates_with_ext (listdir : list string) (has_ext : string -> bool) :
    list string :=
  List.filter (fun d => date_pattern d && has_ext d) (sorted_names listdir).

(** [get_quarterly_dates()]: the grouping by quarter and the selection are
    the statements of hist/analyze.py, on the dates found. *)
Definition get_quarterly_dates (listdir : list string) (has_ext : string -> bool) :
    Py.result (list string) :=
  qs <- Analyze.quarters_loop (dates_with_ext listdir has_ext) [] ;;
  Analyze.pick_loop (Analyze.sorted (Py.keys qs)) qs [].

End NakamotoAnalysis.

(** ** Paths *)

Module Os.

Definition ends_with_sep (a : string) : bool :=
  match last (list_ascii_of_string a) with
  | Some "/"%char => true
  | _ => false
  end.

(** [os.path.join(a, b)] of posixpath. *)
Definition join (a b : string) : string :=
  if String.prefix "/" b then b
  else if String.eqb a "" || ends_with_sep a then (a ++ b)%string
  else (a ++ "/" ++ b)%string.

End Os.

(** ** hist/analyze.py: the driver of the time series *)

Module AnalyzeSeries.

Definition JSON_DIR : string := "../json".

(** The dict [analyze_date] returns for a date with data; a float that
    is not finite is [None]. *)
Record metrics := {
  date : string;
  num_validators : nat;
  num_entities : nat;
  total_stake_avax : Q;
  gini_total : Numpy.float;
  gini_own : Numpy.float;
  nakamoto_30 : nat;
  nakamoto_33 : nat;
  nakamoto_50 : nat
}.

(** [np.array([...], dtype=np.float64)] of a list of [int]s. *)
Definition float64 (l : list Z) : list Q := map inject_Z l.

Section Files.

(** The files: [listdir] is what [os.listdir(JSON_DIR)] returns, and
    [json_file path] the array of validator objects [json.load] reads from
    the file at [path], [None] when nothing exists there. *)
Variable listdir : list string.
Variable json_file : string -> option (list validator).

(** [get_available_dates()]: the names of the date pattern, sorted. *)
Definition get_available_dates : list string :=
  NakamotoAnalysis.sorted_names
    (List.filter NakamotoAnalysis.date_pattern listdir).

(** [load_validators(data_path)]. *)
Definition load_validators (data_path : string) : list validator :=
  let json_path := Os.join data_path "validators.json" in
  match json_file json_path with
  | None => []
  | Some validators => validators
  end.

(** [analyze_date(date_str)]; Python's [None] is [None]. *)
Definition analyze_date (date_str : string) : Py.result (option metrics) :=
  let data_path := Os.join JSON_DIR date_str in
  let validators := load_validators data_path in
  match validators with
  | [] => Py.Ok None
  | _ :: _ =>
      entities <- Analyze.by_address validators ;;
      let total_weights := float64 (map Analyze.e_totalWeight entities) in
      let own_weights := float64 (map Analyze.e_weight entities) in
      let total_stake := Numpy.sum total_weights in
      Py.Ok (Some
        {| date := date_str;
           num_validators := length validators;
           num_entities := length entities;
           total_stake_avax := total_stake / 1000000000;
           gini_total := option_map (fun g => g * 100) (Analyze.gini total_weights);
           gini_own := option_map (fun g => g * 100) (Analyze.gini own_weights);
           nakamoto_30 := Analyze.nakamoto total_weights (30 # 100);
           nakamoto_33 := Analyze.nakamoto total_weights (33 # 100);
           nakamoto_50 := Analyze.nakamoto total_weights (50 # 100) |})
  end.

(** The loop of [analyze_all_quarterly]: the results so far and the
    lines printed so far; an exception leaves the lines printed. *)
Fixpoint analyze_loop (quarterly_dates : list string) (results : list metrics)
    (stdout : list string) : Py.result (list metrics) * list string :=
  match quarterly_dates with
  | [] => (Py.Ok results, stdout)
  | d :: rest =>
      let stdout := stdout ++ [("Analyzing " ++ d ++ "...")%string] in
      match analyze_date d with
      | Py.Raise e => (Py.Raise e, stdout)
      | Py.Ok None => analyze_loop rest results stdout
      | Py.Ok (Some result) => analyze_loop rest (results ++ [result]) stdout
      end
  end.

(** [analyze_all_quarterly()], with what it prints. *)
Definition analyze_all_quarterly : Py.result (list metrics) * list string :=
  let dates := get_available_dates in
  match Analyze.get_quarterly_dates dates with
  | Py.Raise e => (Py.Raise e, [])
  | Py.Ok quarterly_dates => analyze_loop quarterly_dates [] []
  end.

End Files.

End AnalyzeSeries.

(** ** hist/nakamoto_analysis.py: the Nakamoto set and its persistence *)

Module NakamotoSet.

Import NakamotoAnalysis.

(** [sum(e['totalWeight'] for e in entities)]: from 0, left to right. *)
Definition sum_totalWeight (entities : list entity) : Z :=
  fold_left Z.add (map e_totalWeight entities) 0%Z.

(** [sorted(entities, key=lambda e: e['totalWeight'], reverse=True)]:
    descending, entities of equal stake in their order in [entities]. *)
Fixpoint insert_by_stake (e : entity) (l : list entity) : list entity :=
  match l with
  | [] => [e]
  | e' :: l' =>
      if (e_totalWeight e' <=? e_totalWeight e)%Z then e :: l
      else e' :: insert_by_stake e l'
  end.

Definition sorted_by_stake (entities : list entity) : list entity :=
  fold_right insert_by_stake [] entities.

(** [for e in sorted_entities: ...; if cumsum >= target: break]. *)
Fixpoint nakamoto_loop (sorted_entities : list entity) (cumsum : Z) (target : Q)
    (nakamoto_set : list entity) : list entity :=
  match sorted_entities with
  | [] => nakamoto_set
  | e :: rest =>
      let nakamoto_set := nakamoto_set ++ [e] in
      let cumsum := (cumsum + e_totalWeight e)%Z in
      if Qle_bool target (inject_Z cumsum) then nakamoto_set
      else nakamoto_loop rest cumsum target nakamoto_set
  end.

(** [get_nakamoto_set(entities, threshold)]. *)
Definition get_nakamoto_set (entities : list entity) (threshold : Q) :
    list entity :=
  let total := sum_totalWeight entities in
  let sorted_entities := sorted_by_stake entities in
  let target := inject_Z total * threshold in
  nakamoto_loop sorted_entities 0%Z target [].

(** *** [analyze_nakamoto_set] *)

(** This part divides integers: [ZeroDivisionError] besides the
    exceptions of the grouping. *)
Inductive failure :=
| ZeroDivisionError
| Other (e : Py.exn).

Inductive outcome (A : Type) :=
| Returned (a : A)
| Raised (f : failure).
Arguments Returned {A} a.
Arguments Raised {A} f.

(** [x / y] of two [int]s. *)
Definition truediv (x y : Z) : outcome Q :=
  if (y =? 0)%Z then Raised ZeroDivisionError
  else Returned (inject_Z x / inject_Z y).

(** An entry of [top_entities] and the dict [analyze_nakamoto_set]
    returns; a [dict] made of a [Counter] is the counter. *)
Record top_entity := {
  address : string;
  full_address : string;
  stake_pct : Q;
  num_validators : nat;
  countries : Py.counter;
  asns : Py.counter
}.

Record report := {
  date : string;
  total_entities : nat;
  total_validators : nat;
  total_stake_of : Z;
  n30_count : nat;
  n30_stake : Z;
  n30_stake_pct : Q;
  n30_validators : nat;
  n30_countries : nat;
  n30_asns : nat;
  country_distribution : Py.counter;
  asn_distribution : Py.counter;
  top_entities : list top_entity
}.

(** [c.update(other)] of two [Counter]s: the counts add up. *)
Definition counter_update (c other : Py.counter) : Py.counter :=
  union_with (fun x y => Some (x + y)%nat) c other.

(** [sorted(items, key=itemgetter(1), reverse=True)], which
    [most_common] takes the first [n] of. *)
Fixpoint insert_by_count (x : string * nat) (l : list (string * nat)) :
    list (string * nat) :=
  match l with
  | [] => [x]
  | y :: l' =>
      if (snd y <=? snd x)%nat then x :: l else y :: insert_by_count x l'
  end.

(** [dict(pairs)]: a later pair replaces an earlier one of the same key. *)
Definition dict_of (pairs : list (string * nat)) : Py.counter :=
  fold_left (fun m p => <[fst p := snd p]> m) pairs ∅.

(** [addr[:12] + '...' + addr[-4:]]. *)
Definition short_address (addr : string) : string :=
  (substring 0 12 addr ++ "..." ++
   substring (String.length addr - 4) 4 addr)%string.

Section Reports.

(** Python's [str] of a list of strings; the array of validator objects
    in the file at a path, [None] when nothing exists there; the order in
    which Python iterates over a set of strings, and over the items of a
    [Counter] (the order in which its keys were first counted). *)
Variable str : list string -> string.
Variable json_file : string -> option (list validator).
Variable set_order : gset string -> list string.
Variable items_order : Py.counter -> list (string * nat).

(** [load_validators_ext(date_str)]. *)
Definition load_validators_ext (date_str : string) : list validator :=
  let path :=
    Os.join (Os.join AnalyzeSeries.JSON_DIR date_str) "validators-ext.json" in
  match json_file path with
  | None => []
  | Some validators => validators
  end.

(** [c.most_common(n)]. *)
Definition most_common (n : nat) (c : Py.counter) : list (string * nat) :=
  firstn n (fold_right insert_by_count [] (items_order c)).

(** The loop that fills [top_addresses]. *)
Fixpoint top_addresses_loop (nakamoto_set : list entity) (total_stake : Z)
    (top_addresses : list top_entity) : outcome (list top_entity) :=
  match nakamoto_set with
  | [] => Returned top_addresses
  | e :: rest =>
      match set_order (e_rewardAddresses e) with
      | [] => top_addresses_loop rest total_stake top_addresses
      | addr :: _ =>
          let short :=
            if (20 <? String.length addr)%nat then short_address addr
            else addr in
          match truediv (e_totalWeight e) total_stake with
          | Raised f => Raised f
          | Returned q =>
              top_addresses_loop rest total_stake
                (top_addresses ++
                 [ {| address := short; full_address := addr;
                      stake_pct := q * 100;
                      num_validators := length (e_validators e);
                      countries := e_countries e; asns := e_asns e |} ])
          end
      end
  end.

(** [analyze_nakamoto_set(date_str)]; Python's [None] is [None]. *)
Definition analyze_nakamoto_set (date_str : string) : outcome (option report) :=
  let validators := load_validators_ext date_str in
  match validators with
  | [] => Returned None
  | _ :: _ =>
  match by_address_ext str validators with
  | Py.Raise e => Raised (Other e)
  | Py.Ok entities =>
  let total_stake := sum_totalWeight entities in
  let nakamoto_set := get_nakamoto_set entities (30 # 100) in
  let n30_stake := sum_totalWeight nakamoto_set in
  let n30_validators :=
    fold_left Nat.add (map (fun e => length (e_validators e)) nakamoto_set) 0%nat in
  let country_counts :=
    fold_left (fun c e => counter_update c (e_countries e)) nakamoto_set ∅ in
  let asn_counts :=
    fold_left (fun c e => counter_update c (e_asns e)) nakamoto_set ∅ in
  let n30_countries : gset string :=
    fold_left (fun s e => s ∪ dom (e_countries e)) nakamoto_set ∅ in
  let n30_asns : gset string :=
    fold_left (fun s e => s ∪ dom (e_asns e)) nakamoto_set ∅ in
  match top_addresses_loop nakamoto_set total_stake [] with
  | Raised f => Raised f
  | Returned top_addresses =>
  match truediv n30_stake total_stake with
  | Raised f => Raised f
  | Returned q =>
      Returned (Some
        {| date := date_str;
           total_entities := length entities;
           total_validators := length validators;
           total_stake_of := total_stake;
           n30_count := length nakamoto_set;
           n30_stake := n30_stake;
           n30_stake_pct := q * 100;
           n30_validators := n30_validators;
           n30_countries := size n30_countries;
           n30_asns := size n30_asns;
           country_distribution := dict_of (most_common 10 country_counts);
           asn_distribution := dict_of (most_common 10 asn_counts);
           top_entities := top_addresses |})
  end end end end.

(** The loop of [analyze_all_quarterly]: the results so far and the
    lines printed so far. *)
Fixpoint analyze_loop (dates : list string) (results : list report)
    (stdout : list string) : outcome (list report) * list string :=
  match dates with
  | [] => (Returned results, stdout)
  | d :: rest =>
      let stdout := stdout ++ [("Analyzing " ++ d ++ "...")%string] in
      match analyze_nakamoto_set d with
      | Raised f => (Raised f, stdout)
      | Returned None => analyze_loop rest results stdout
      | Returned (Some result) => analyze_loop rest (results ++ [result]) stdout
      end
  end.

(** [analyze_all_quarterly()], with what it prints: [listdir] is what
    [os.listdir(JSON_DIR)] returns, [has_ext d] whether
    [validators-ext.json] exists under [d]. *)
Definition analyze_all_quarterly (listdir : list string)
    (has_ext : string -> bool) : outcome (list report) * list string :=
  match NakamotoAnalysis.get_quarterly_dates listdir has_ext with
  | Py.Raise e => (Raised (Other e), [])
  | Py.Ok dates => analyze_loop dates [] []
  end.

End Reports.

(** *** [track_entity_persistence] *)

Record entry := { entry_address : string; appearances : nat; pct : Q }.

Record persistence := {
  persistent : list entry;
  occasional : list entry;
  transient : list entry;
  total_unique : nat
}.

(** [entity_appearances[addr].append(date)] on a [defaultdict(list)]. *)
Definition appear (entity_appearances : Py.dict string (list string))
    (addr date : string) : Py.dict string (list string) :=
  Py.set addr (default [] (Py.get addr entity_appearances) ++ [date])
    entity_appearances.

Definition appearances_in (entity_appearances : Py.dict string (list string))
    (r : report) : Py.dict string (list string) :=
  fold_left (fun apps e => appear apps (full_address e) (date r))
    (top_entities r) entity_appearances.

Definition entity_appearances (results : list report) :
    Py.dict string (list string) :=
  fold_left appearances_in results [].

(** [for addr, dates in entity_appearances.items()]. *)
Fixpoint categorize (items : list (string * list string)) (total_periods : nat)
    (persistent occasional transient : list entry) :
    outcome (list entry * list entry * list entry) :=
  match items with
  | [] => Returned (persistent, occasional, transient)
  | (addr, dates) :: rest =>
      match truediv (Z.of_nat (length dates)) (Z.of_nat total_periods) with
      | Raised f => Raised f
      | Returned q =>
          let pct := q * 100 in
          let entry := {| entry_address := short_address addr;
                          appearances := length dates; pct := pct |} in
          if Numpy.Qlt_bool 50 pct
          then categorize rest total_periods (persistent ++ [entry]) occasional transient
          else if Numpy.Qlt_bool 25 pct
          then categorize rest total_periods persistent (occasional ++ [entry]) transient
          else categorize rest total_periods persistent occasional (transient ++ [entry])
      end
  end.

(** [sorted(l, key=lambda x: -x['pct'])]: ascending in the key, entries
    of equal key in their order in [l]. *)
Fixpoint insert_entry (x : entry) (l : list entry) : list entry :=
  match l with
  | [] => [x]
  | y :: l' =>
      if Qle_bool (- pct x) (- pct y) then x :: l else y :: insert_entry x l'
  end.

Definition sorted_by_pct (l : list entry) : list entry :=
  fold_right insert_entry [] l.

(** [track_entity_persistence(results)]. *)
Definition track_entity_persistence (results : list report) :
    outcome persistence :=
  let apps := entity_appearances results in
  let total_periods := length results in
  match categorize apps total_periods [] [] [] with
  | Raised f => Raised f
  | Returned (persistent, occasional, transient) =>
      Returned {| persistent := sorted_by_pct persistent;
                  occasional := sorted_by_pct occasional;
                  transient := sorted_by_pct transient;
                  total_unique := length apps |}
  end.

End NakamotoSet.

(** ** stakes.py: the equal reference distribution *)

Module StakesReference.


End StakesReference.

(** ** Vocabulary of the statements *)

(** A sequence of non-negative weights. *)
Definition nonneg (a : list Q) : Prop := Forall (fun x => 0 <= x) a.

(** Ascending in the array sense: entries grow with the index. *)
Definition ascending (a : list Q) : Prop :=
  forall i j, (i <= j)%nat -> (j < length a)%nat -> nth i a 0 <= nth j a 0.




(** Two float results agree: both are non-finite, or both are the same
    rational. *)
Definition float_eq (x y : option Q) : Prop :=
  match x, y with
  | Some p, Some q => p == q
  | None, None => True
  | _, _ => False
  end.

(** The GINI coefficient in the words of the specification: 0 for length 0,
    otherwise the mean of [|a_i - a_j|] over all ordered pairs [(i, j)] of
    positions, self-pairs included, divided by twice the arithmetic mean. *)
Definition ordered_pairs (n : nat) : list (nat * nat) :=
  list_prod (seq 0 n) (seq 0 n).

Definition mean_abs_difference (a : list Q) : Q :=
  Numpy.sum (map (fun ij => Qabs (nth (fst ij) a 0 - nth (snd ij) a 0))
               (ordered_pairs (length a)))
  / Numpy.of_nat (length (ordered_pairs (length a))).

Definition arithmetic_mean (a : list Q) : Q :=
  Numpy.sum a / Numpy.of_nat (length a).

Definition gini_closed_form (a : list Q) : option Q :=
  match a with
  | [] => Some 0
  | _ => Numpy.fdiv (mean_abs_difference a) (2 * arithmetic_mean a)
  end.

(** *** Grouping *)

(** The reward addresses of a record, none when the field is absent, and
    the set the groupers use as key. *)
Definition addresses (v : validator) : list string :=
  default [] (v_rewardAddresses v).

Definition address_set (v : validator) : gset string :=
  frozenset (addresses v).

(** [v.get('totalWeight', 0)], [v.get('weight', 0)] and the ids of a
    record. *)
Definition total_weight (v : validator) : Z := default 0%Z (v_totalWeight v).
Definition own_weight (v : validator) : Z := default 0%Z (v_weight v).
Definition ids (v : validator) : list string :=
  match v_id v with
  | Some vid => Analyze.id_list vid
  | None => []
  end.

Definition sum_Z (l : list Z) : Z := fold_right Z.add 0%Z l.

(** The records of [rs] whose key is [k], in input order. *)
Definition group_of {R K : Type} `{EqDecision K} (key : R -> K) (rs : list R)
    (k : K) : list R :=
  List.filter (fun r => bool_decide (key r = k)) rs.

(** The member validators of the entity with address set [k]: the input
    records whose reward-address set is [k], in input order. *)
Abbreviation members := (group_of address_set).

(** The input records whose reward-address set is not empty. *)
Definition with_addresses (validators : list validator) : list validator :=
  List.filter (fun v => negb (bool_decide (address_set v = ∅))) validators.

(** The grouping loops as folds: every turn stores under the key of the
    record the update [upd] of what is stored there, or of a new aggregate
    [fresh]. *)
Section Accumulate.
Context {R K E : Type} `{EqDecision K}.
Context (key : R -> K) (fresh : E) (upd : E -> R -> E).

Definition accumulate_step (gs : Py.dict K E) (r : R) : Py.dict K E :=
  Py.set (key r) (upd (default fresh (Py.get (key r) gs)) r) gs.

Definition accumulate (rs : list R) (gs : Py.dict K E) : Py.dict K E :=
  fold_left accumulate_step rs gs.
End Accumulate.

(** The update of [by_address] of hist/analyze.py on a record that has
    the fields it reads. *)
Definition analyze_update (g : Analyze.entity) (v : validator) : Analyze.entity :=
  {| Analyze.e_id := Analyze.e_id g ∪ list_to_set (ids v);
     Analyze.e_rewardAddresses :=
       Analyze.e_rewardAddresses g ∪ list_to_set (addresses v);
     Analyze.e_weight := Analyze.e_weight g + own_weight v;
     Analyze.e_delegatorWeight :=
       Analyze.e_delegatorWeight g + get_delegator_weight v;
     Analyze.e_totalWeight := Analyze.e_totalWeight g + total_weight v |}%Z.

(** A record has the fields [by_address] of hist/analyze.py reads with
    [v[...]]. *)
Definition has_basic_fields (v : validator) : Prop :=
  is_Some (v_id v) /\ is_Some (v_rewardAddresses v) /\
  is_Some (v_weight v) /\ is_Some (v_totalWeight v).

(** A validator of the basic snapshots: an id, one reward address and the
    three weights, the delegated one under the older name. *)
Definition validator_of (name address : string) (weight delegated total : Z) :
    validator :=
  {| v_id := Some (IdStr name);
     v_rewardAddresses := Some [address];
     v_weight := Some weight;
     v_delegatorWeight := None;
     v_delegatedWeight := Some delegated;
     v_totalWeight := Some total;
     v_geo_country_code := None; v_geo_asnum_name := None;
     v_geo_city_name := None; v_geo_city_region := None;
     v_version := None |}.

(** The same validator as the newer snapshots have it: the delegated
    stake is under [delegatorWeight]. *)
Definition validator_new_format (name address : string)
    (weight delegated total : Z) : validator :=
  {| v_id := Some (IdStr name);
     v_rewardAddresses := Some [address];
     v_weight := Some weight;
     v_delegatorWeight := Some delegated;
     v_delegatedWeight := None;
     v_totalWeight := Some total;
     v_geo_country_code := None; v_geo_asnum_name := None;
     v_geo_city_name := None; v_geo_city_region := None;
     v_version := None |}.

(** A validator without reward addresses. *)
Definition validator_no_address (name : string) (total : Z) : validator :=
  {| v_id := Some (IdStr name);
     v_rewardAddresses := Some [];
     v_weight := Some total;
     v_delegatorWeight := Some 0%Z;
     v_delegatedWeight := None;
     v_totalWeight := Some total;
     v_geo_country_code := None; v_geo_asnum_name := None;
     v_geo_city_name := None; v_geo_city_region := None;
     v_version := None |}.

(** *** Dates *)












(** A toy generator for the examples: its states are integers, a seed
    that is not negative is the state, and the draws from state [st] are
    [1/(|st|+2)], [1/(|st|+3)], ... *)
Definition toy_seeded (seed : Z) : Py.result Z :=
  if (seed <? 0)%Z then Py.Raise (Py.ValueError "expected non-negative integer")
  else Py.Ok seed.

Definition toy_uniform (st : Z) (n : nat) : list Q :=
  map (fun i => 1 / inject_Z (Z.abs st + Z.of_nat i + 2)) (seq 0 n).

(** The entries of an array as reduced fractions. *)
Definition reduced (a : Numpy.array) : Numpy.array := option_map (map Qred) a.

(** ** Vocabulary of the further properties *)



(** The stake of a list of entities, an exact integer. *)
Definition stake_of (es : list NakamotoAnalysis.entity) : Z :=
  sum_Z (map NakamotoAnalysis.e_totalWeight es).

(** The sum of [|x - y|] over the entries [x] of [a] and [y] of [b]. *)
Definition abs_differences (a b : list Q) : Q :=
  Numpy.sum (map (fun p => Qabs (fst p - snd p)) (list_prod a b)).



(** The number of records of [vs] whose [field] is the non-empty string
    [c]. *)
Definition count_of (field : validator -> option string) (vs : list validator)
    (c : string) : nat :=
  length (List.filter (fun v => bool_decide (Py.truthy (field v) = Some c)) vs).

(** The count a [Counter] gives for a key: 0 for a key it does not hold. *)
Definition counted (cnt : Py.counter) (c : string) : nat :=
  default 0%nat (cnt !! c).

(** A record of the older snapshots: the four basic fields and the
    delegated stake under [delegatedWeight] only. *)
Definition old_format (v : validator) : Prop :=
  has_basic_fields v /\ is_Some (v_delegatedWeight v) /\
  v_delegatorWeight v = None.

(** An entity of stakes.py read as one of hist/analyze.py: the same
    sets and sums, the delegated stake under the other name. *)
Definition renamed (g : Stakes.entity) : Analyze.entity :=
  {| Analyze.e_id := Stakes.e_id g;
     Analyze.e_rewardAddresses := Stakes.e_rewardAddresses g;
     Analyze.e_weight := Stakes.e_weight g;
     Analyze.e_delegatorWeight := Stakes.e_delegatedWeight g;
     Analyze.e_totalWeight := Stakes.e_totalWeight g |}.

(** The update of [by_address] of stakes.py on a record that has the
    fields it reads. *)
Definition stakes_update (g : Stakes.entity) (v : validator) : Stakes.entity :=
  {| Stakes.e_id := Stakes.e_id g ∪ list_to_set (ids v);
     Stakes.e_rewardAddresses :=
       Stakes.e_rewardAddresses g ∪ list_to_set (addresses v);
     Stakes.e_weight := Stakes.e_weight g + own_weight v;
     Stakes.e_delegatedWeight :=
       Stakes.e_delegatedWeight g + default 0%Z (v_delegatedWeight v);
     Stakes.e_totalWeight := Stakes.e_totalWeight g + total_weight v |}%Z.

(** A dict with [h] applied to its values. *)
Definition map_values {K E1 E2 : Type} (h : E1 -> E2) (gs : Py.dict K E1) :
    Py.dict K E2 :=
  map (fun kv => (fst kv, h (snd kv))) gs.

(** [x] comes before [y] in the lists of [track_entity_persistence]: its
    percentage is at least as high. *)
Definition by_pct (x y : NakamotoSet.entry) : Prop :=
  NakamotoSet.pct y <= NakamotoSet.pct x.

(** The number of top entities in all quarterly results. *)
Definition top_entity_count (results : list NakamotoSet.report) : nat :=
  length (concat (map NakamotoSet.top_entities results)).

(** The entry of an address seen at the dates [snd item], of
    [total_periods] quarterly results. *)
Definition entry_of (total_periods : nat) (item : string * list string) :
    NakamotoSet.entry :=
  {| NakamotoSet.entry_address := NakamotoSet.short_address (fst item);
     NakamotoSet.appearances := length (snd item);
     NakamotoSet.pct :=
       Numpy.of_nat (length (snd item)) / Numpy.of_nat total_periods * 100 |}.

Definition is_persistent (e : NakamotoSet.entry) : bool :=
  Numpy.Qlt_bool 50 (NakamotoSet.pct e).

Definition is_occasional (e : NakamotoSet.entry) : bool :=
  negb (Numpy.Qlt_bool 50 (NakamotoSet.pct e)) &&
  Numpy.Qlt_bool 25 (NakamotoSet.pct e).

Definition is_transient (e : NakamotoSet.entry) : bool :=
  negb (Numpy.Qlt_bool 50 (NakamotoSet.pct e)) &&
  negb (Numpy.Qlt_bool 25 (NakamotoSet.pct e)).

Definition sum_nat (l : list nat) : nat := fold_right Nat.add 0%nat l.

(** A dict of appearances as the loop keeps it: every address once, with
    at least one date. *)
Definition seen (apps : Py.dict string (list string)) : Prop :=
  NoDup (Py.keys apps) /\ Forall (fun kv => snd kv <> []) apps.

(** The number of dates in a dict of appearances. *)
Definition dates_seen (apps : Py.dict string (list string)) : Z :=
  sum_Z (map (fun l => Z.of_nat (length l)) (Py.values apps)).





(** The line [analyze_all_quarterly] prints for a date. *)
Definition announced (d : string) : string :=
  ("Analyzing " ++ d ++ "...")%string.

(** The distinct elements of a list, each at its first occurrence. *)
Fixpoint first_occurrences {K} `{EqDecision K} (l : list K) : list K :=
  match l with
  | [] => []
  | k :: l' =>
      k :: List.filter (fun k' => negb (bool_decide (k' = k))) (first_occurrences l')
  end.

(** [k] is not among the keys [ks]. *)
Definition unseen {K : Type} `{EqDecision K} (ks : list K) (k : K) : bool :=
  negb (bool_decide (k ∈ ks)).

(** The entry of [top_entities] for the entity [e], [addr] being the
    first of its reward addresses in Python's order and [total] the total
    stake. *)
Definition top_entry_of (total : Z) (e : NakamotoAnalysis.entity)
    (addr : string) (t : NakamotoSet.top_entity) : Prop :=
  NakamotoSet.full_address t = addr /\
  NakamotoSet.address t =
    (if (20 <? String.length addr)%nat then NakamotoSet.short_address addr
     else addr) /\
  NakamotoSet.stake_pct t ==
    inject_Z (NakamotoAnalysis.e_totalWeight e) / inject_Z total * 100 /\
  NakamotoSet.num_validators t = length (NakamotoAnalysis.e_validators e) /\
  NakamotoSet.countries t = NakamotoAnalysis.e_countries e /\
  NakamotoSet.asns t = NakamotoAnalysis.e_asns e.

(** The extended snapshot of [d] holds validators. *)
Definition has_ext_data (json_file : string -> option (list validator))
    (d : string) : bool :=
  match NakamotoSet.load_validators_ext json_file d with
  | [] => false
  | _ :: _ => true
  end.

(** The total stake of the entities of the extended snapshot of [d]. *)
Definition stake_at (str : list string -> string)
    (json_file : string -> option (list validator)) (d : string) : Z :=
  match NakamotoAnalysis.by_address_ext str (NakamotoSet.load_validators_ext json_file d) with
  | Py.Ok entities => stake_of entities
  | Py.Raise _ => 0%Z
  end.

(** A snapshot with validators whose entities hold no stake in total. *)
Definition stakeless (str : list string -> string)
    (json_file : string -> option (list validator)) (d : string) : bool :=
  has_ext_data json_file d && (stake_at str json_file d =? 0)%Z.

(** *** Data of the examples *)



Definition toy_validators : list validator :=
  [validator_of "n1" "X" 5 0 5; validator_of "n2" "Y" 6 1 7;
   validator_of "n3" "X" 1 0 1].



(** The extended snapshots: the three validators at the end of March
    2024, validators without stake at the end of June. *)
Definition toy_ext_snapshots (path : string) : option (list validator) :=
  if String.eqb path "../json/2024-03-31/validators-ext.json"
  then Some toy_validators
  else if String.eqb path "../json/2024-06-30/validators-ext.json"
  then Some [validator_of "n1" "X" 0 0 0]
  else None.

(** An order of iteration over sets and counters. *)
Definition toy_set_order (s : gset string) : list string := elements s.

Definition toy_items_order (c : Py.counter) : list (string * nat) :=
  map_to_list c.

Definition toy_str (l : list string) : string := String.concat ", " l.

(** * Examples *)

Example by_address_shared_X :
  Analyze.by_address
    [validator_of "n1" "X" 5 0 5; validator_of "n2" "X" 6 1 7] =
  Py.Ok [ {| Analyze.e_id := {[ "n1"; "n2" ]};
             Analyze.e_rewardAddresses := {[ "X" ]};
             Analyze.e_weight := 11; Analyze.e_delegatorWeight := 1;
             Analyze.e_totalWeight := 12 |} ].
Proof. vm_compute. reflexivity. Qed.

Example nakamoto_equal_30 : Analyze.nakamoto [10; 10; 10; 10] (3 # 10) = 2%nat.
Proof. reflexivity. Qed.

Example nakamoto_whale_30 : Analyze.nakamoto [70; 10; 10; 10] (3 # 10) = 1%nat.
Proof. reflexivity. Qed.

Example gini_equal : float_eq (Analyze.gini [10; 10; 10; 10]) (Some 0).
Proof. vm_compute. reflexivity. Qed.

Example gini_whale : float_eq (Analyze.gini [70; 10; 10; 10]) (Some (45 # 100)).
Proof. vm_compute. reflexivity. Qed.

Example gini_no_stake : Analyze.gini [0; 0] = None.
Proof. reflexivity. Qed.

Example quarterly_pick_2024 :
  Analyze.get_quarterly_dates
    ["2024-01-15"; "2024-03-29"; "2024-03-31"; "2024-04-02"]%string =
  Py.Ok ["2024-03-31"; "2024-04-02"]%string.
Proof. vm_compute. reflexivity. Qed.

Example strptime_short_month :
  Datetime.strptime "2024-1-5" =
  Py.Ok {| Datetime.year := 2024; Datetime.month := 1; Datetime.day := 5 |}.
Proof. vm_compute. reflexivity. Qed.

Example strptime_no_such_day :
  Datetime.strptime "2023-02-29" =
  Py.Raise (Py.ValueError "day is out of range for month").
Proof. vm_compute. reflexivity. Qed.

Example quarterly_pick_with_ext :
  NakamotoAnalysis.get_quarterly_dates
    ["2024-04-02"; "notes"; "2024-03-31"; "2024-01-15"; "2024-03-29"]%string
    (fun d => negb (String.eqb d "2024-03-31")) =
  Py.Ok ["2024-03-29"; "2024-04-02"]%string.
Proof. vm_compute. reflexivity. Qed.

(** * Properties *)

(** ** Facts about the numpy primitives *)

Section NumpyFacts.

Import Numpy.

Lemma Qlt_bool_iff x y : Qlt_bool x y = true <-> x < y.
Proof.
  unfold Qlt_bool. rewrite negb_true_iff, <- not_true_iff_false, Qle_bool_iff.
  split; [apply Qnot_le_lt | apply Qlt_not_le].
Qed.

Lemma Qlt_bool_false x y : Qlt_bool x y = false <-> y <= x.
Proof.
  unfold Qlt_bool. rewrite negb_false_iff. apply Qle_bool_iff.
Qed.




Lemma sum_nonneg a : nonneg a -> 0 <= sum a.
Proof.
  induction 1; simpl; lra.
Qed.

Lemma insert_perm x a : Permutation (insert x a) (x :: a).
Proof.
  induction a as [|y a IH]; simpl; [reflexivity|].
  destruct (Qle_bool x y); [reflexivity|].
  rewrite IH. apply perm_swap.
Qed.

Lemma sort_perm a : Permutation (sort a) a.
Proof.
  induction a as [|x a IH]; simpl; [constructor|].
  rewrite insert_perm. now constructor.
Qed.





Lemma length_cumsum_from acc a : length (cumsum_from acc a) = length a.
Proof.
  revert acc. induction a as [|x a IH]; intros acc; simpl; [reflexivity|].
  now rewrite IH.
Qed.

Lemma length_cumsum a : length (cumsum a) = length a.
Proof. apply length_cumsum_from. Qed.

(** Entry [i] of the running totals is the total of the first [i+1] entries. *)
Lemma nth_cumsum_from acc a i :
  (i < length a)%nat ->
  nth i (cumsum_from acc a) 0 == acc + sum (firstn (S i) a).
Proof.
  revert acc i. induction a as [|x a IH]; intros acc i Hi; simpl in Hi; [lia|].
  destruct i as [|i].
  - simpl. destruct a; simpl; ring.
  - change (nth (S i) (cumsum_from acc (x :: a)) 0)
      with (nth i (cumsum_from (acc + x) a) 0).
    rewrite IH by lia.
    change (firstn (S (S i)) (x :: a)) with (x :: firstn (S i) a).
    simpl sum. ring.
Qed.

Lemma nth_cumsum a i :
  (i < length a)%nat -> nth i (cumsum a) 0 == sum (firstn (S i) a).
Proof.
  intros Hi. unfold cumsum. rewrite nth_cumsum_from by exact Hi. ring.
Qed.

Lemma nonneg_firstn a k : nonneg a -> nonneg (firstn k a).
Proof. unfold nonneg. apply Forall_take. Qed.



Lemma sum_firstn_mono a i j :
  nonneg a -> (i <= j)%nat -> sum (firstn i a) <= sum (firstn j a).
Proof.
  intros Ha. revert i j. induction Ha as [|x a Hx Ha IH]; intros i j Hij.
  - rewrite !firstn_nil. lra.
  - destruct i as [|i]; destruct j as [|j]; try lia; simpl.
    + lra.
    + pose proof (sum_nonneg (firstn j a) (nonneg_firstn a j Ha)). lra.
    + specialize (IH i j ltac:(lia)). lra.
Qed.


Lemma cumsum_ascending a : nonneg a -> ascending (cumsum a).
Proof.
  intros Ha i j Hij Hj. rewrite length_cumsum in Hj.
  rewrite !nth_cumsum by lia.
  apply sum_firstn_mono; [exact Ha | lia].
Qed.

Lemma binsearch_left_step fuel arr key min_idx max_idx :
  binsearch_left (S fuel) arr key min_idx max_idx =
  if (min_idx <? max_idx)%nat then
    if Qlt_bool (nth (min_idx + (max_idx - min_idx) / 2) arr 0) key
    then binsearch_left fuel arr key (min_idx + (max_idx - min_idx) / 2 + 1) max_idx
    else binsearch_left fuel arr key min_idx (min_idx + (max_idx - min_idx) / 2)
  else min_idx.
Proof. reflexivity. Qed.

(** The loop invariant of the binary search on an ascending array:
    everything left of [min_idx] is below the key, everything from
    [max_idx] on is at least the key. *)
Lemma binsearch_left_inv fuel arr key :
  ascending arr ->
  forall min_idx max_idx,
    (min_idx <= max_idx)%nat -> (max_idx <= length arr)%nat ->
    (max_idx - min_idx <= fuel)%nat ->
    (forall i, (i < min_idx)%nat -> nth i arr 0 < key) ->
    (forall i, (max_idx <= i)%nat -> (i < length arr)%nat -> key <= nth i arr 0) ->
    let r := binsearch_left fuel arr key min_idx max_idx in
    (r <= length arr)%nat /\
    (forall i, (i < r)%nat -> nth i arr 0 < key) /\
    (forall i, (r <= i)%nat -> (i < length arr)%nat -> key <= nth i arr 0).
Proof.
  intros Hasc. induction fuel as [|fuel IH]; intros lo hi Hlh Hhi Hfuel Hlo Hge.
  - simpl. assert (lo = hi) by lia. subst hi. repeat split; [lia | exact Hlo | exact Hge].
  - cbv zeta. rewrite binsearch_left_step.
    destruct (Nat.ltb_spec lo hi) as [Hlt|Hnlt].
    + set (mid := (lo + (hi - lo) / 2)%nat).
      assert (Hmid : (lo <= mid /\ mid < hi)%nat).
      { unfold mid. pose proof (Nat.div_mod_eq (hi - lo) 2).
        pose proof (Nat.mod_upper_bound (hi - lo) 2). lia. }
      destruct (Qlt_bool (nth mid arr 0) key) eqn:E.
      * apply Qlt_bool_iff in E.
        apply IH; [lia | lia | lia | | exact Hge].
        intros i Hi.
        assert (nth i arr 0 <= nth mid arr 0) by (apply Hasc; lia).
        lra.
      * apply Qlt_bool_false in E.
        apply IH; [lia | lia | lia | exact Hlo |].
        intros i Hi Hn.
        assert (nth mid arr 0 <= nth i arr 0) by (apply Hasc; lia).
        lra.
    + assert (lo = hi) by lia. subst hi.
      repeat split; [lia | exact Hlo | exact Hge].
Qed.

(** On an ascending array the search returns the insertion point: the
    index of the first entry that is at least the key. *)
Lemma searchsorted_left_spec arr key :
  ascending arr ->
  let r := searchsorted_left arr key in
  (r <= length arr)%nat /\
  (forall i, (i < r)%nat -> nth i arr 0 < key) /\
  (forall i, (r <= i)%nat -> (i < length arr)%nat -> key <= nth i arr 0).
Proof.
  intros Hasc. unfold searchsorted_left.
  apply binsearch_left_inv; first [exact Hasc | lia | intros; lia].
Qed.


End NumpyFacts.

(** ** The Nakamoto coefficient *)

Section NakamotoFacts.

Import Numpy.




Lemma nakamoto_nonempty w t :
  w <> [] ->
  Analyze.nakamoto w t =
  S (searchsorted_left (cumsum (rev (sort w))) (sum w * t)).
Proof.
  intros Hw. unfold Analyze.nakamoto.
  destruct w as [|x w]; [congruence|]. simpl length. simpl Nat.eqb.
  cbv zeta. apply Nat.add_1_r.
Qed.

Lemma length_desc w : length (rev (sort w)) = length w.
Proof. rewrite length_rev. apply Permutation_length, sort_perm. Qed.

Lemma nonneg_desc w : nonneg w -> nonneg (rev (sort w)).
Proof.
  intros Hw. unfold nonneg. apply Forall_rev.
  eapply Permutation_Forall; [symmetry; apply sort_perm | exact Hw].
Qed.


(** What the search returns inside [nakamoto], in terms of prefix sums
    of the descending weights. *)
Lemma nakamoto_index w key :
  nonneg w ->
  let d := rev (sort w) in
  let idx := searchsorted_left (cumsum d) key in
  (idx <= length w)%nat /\
  (forall i, (i < idx)%nat -> sum (firstn (S i) d) < key) /\
  (forall i, (idx <= i)%nat -> (i < length w)%nat -> key <= sum (firstn (S i) d)).
Proof.
  intros Hw d idx.
  assert (Hd : nonneg d) by now apply nonneg_desc.
  destruct (searchsorted_left_spec (cumsum d) key (cumsum_ascending d Hd))
    as (Hr & Hlt & Hge).
  fold idx in Hr, Hlt, Hge.
  rewrite length_cumsum in Hr, Hge. unfold d in Hr, Hge at 1.
  rewrite length_desc in Hr, Hge.
  split; [exact Hr|]. split.
  - intros i Hi. rewrite <- nth_cumsum; [now apply Hlt|].
    unfold d. rewrite length_desc. lia.
  - intros i Hi Hn. rewrite <- nth_cumsum; [now apply Hge|].
    unfold d. rewrite length_desc. lia.
Qed.



Lemma nakamoto_monotone_key w t1 t2 :
  nonneg w -> sum w * t1 <= sum w * t2 ->
  (Analyze.nakamoto w t1 <= Analyze.nakamoto w t2)%nat.
Proof.
  intros Hw Hkey. destruct w as [|x0 w0] eqn:Ew; [reflexivity|].
  rewrite <- Ew in *. assert (Hne : w <> []) by (rewrite Ew; discriminate).
  rewrite !nakamoto_nonempty by exact Hne.
  destruct (nakamoto_index w (sum w * t1) Hw) as (Hr1 & Hlt1 & _).
  destruct (nakamoto_index w (sum w * t2) Hw) as (Hr2 & _ & Hge2).
  cbv zeta in *.
  set (i1 := searchsorted_left _ (sum w * t1)) in *.
  set (i2 := searchsorted_left _ (sum w * t2)) in *.
  destruct (Nat.le_gt_cases i1 i2) as [H|H]; [lia|]. exfalso.
  specialize (Hlt1 i2 H). specialize (Hge2 i2 (Nat.le_refl _) ltac:(lia)). lra.
Qed.

(** C10.  For non-negative weights and thresholds [t1 <= t2] in (0,1],
    [nakamoto weights t1 <= nakamoto weights t2]. *)
Theorem nakamoto_monotone_in_threshold (w : list Q) (t1 t2 : Q) :
  nonneg w -> 0 < t1 -> t1 <= t2 -> t2 <= 1 ->
  (Analyze.nakamoto w t1 <= Analyze.nakamoto w t2)%nat.
Proof.
  intros Hw _ Ht _. apply nakamoto_monotone_key; [exact Hw|].
  pose proof (sum_nonneg w Hw). nra.
Qed.

(** *** Threshold 1 *)







Lemma sum_all_zero w : Forall (fun x => x == 0) w -> sum w == 0.
Proof.
  induction 1 as [|x w Hx _ IH]; simpl; lra.
Qed.







End NakamotoFacts.

(** ** The GINI coefficient *)

Section GiniFacts.

Import Numpy.

Lemma map_nth_positions (a : list Q) :
  map (fun i => nth i a 0) (seq 0 (length a)) = a.
Proof.
  induction a as [|x a IH]; [reflexivity|].
  simpl. f_equal. rewrite <- seq_shift, map_map. exact IH.
Qed.

Lemma list_prod_map {A B C D} (f : A -> C) (g : B -> D) (l : list A) (k : list B) :
  list_prod (map f l) (map g k) =
  map (fun p => (f (fst p), g (snd p))) (list_prod l k).
Proof.
  induction l as [|x l IH]; [reflexivity|].
  simpl. rewrite map_app, IH. f_equal.
  rewrite !map_map. reflexivity.
Qed.

(** The flattened matrix of absolute differences lists [|x - y|] for the
    pairs of entries in row-major order. *)
Lemma outer_flat (a b : list Q) :
  concat (abs2 (subtract_outer a b)) =
  map (fun p => Qabs (fst p - snd p)) (list_prod a b).
Proof.
  unfold abs2, subtract_outer.
  induction a as [|x a IH]; [reflexivity|].
  simpl. rewrite IH, map_app. f_equal.
  rewrite !map_map. reflexivity.
Qed.

(** ... which are the pairs of positions of the specification. *)
Lemma outer_flat_positions (a : list Q) :
  concat (abs2 (subtract_outer a a)) =
  map (fun ij => Qabs (nth (fst ij) a 0 - nth (snd ij) a 0))
    (ordered_pairs (length a)).
Proof.
  rewrite outer_flat. unfold ordered_pairs.
  rewrite <- (map_nth_positions a) at 1 2.
  rewrite list_prod_map, map_map. reflexivity.
Qed.

Lemma fdiv_some x y : ~ y == 0 -> fdiv x y = Some (x / y).
Proof.
  intros Hy. unfold fdiv. destruct (Qeq_bool y 0) eqn:E; [|reflexivity].
  apply Qeq_bool_iff in E. contradiction.
Qed.

Lemma fdiv_none x y : y == 0 -> fdiv x y = None.
Proof.
  intros Hy. unfold fdiv. apply Qeq_bool_iff in Hy. now rewrite Hy.
Qed.

Lemma of_nat_nonzero n : (0 < n)%nat -> ~ of_nat n == 0.
Proof.
  unfold of_nat, Qeq. simpl. lia.
Qed.

(** [gini] of hist/analyze.py is the closed form of the specification:
    0.0 for a sequence of length 0 and otherwise the mean of [|a_i - a_j|]
    over all ordered pairs of positions, self-pairs included, divided by
    twice the arithmetic mean of the weights (a non-finite float when that
    mean is zero). *)
Lemma gini_is_closed_form (a : list Q) :
  float_eq (Analyze.gini a) (gini_closed_form a).
Proof.
  destruct a as [|x0 a0] eqn:Ea; [simpl; reflexivity|].
  rewrite <- Ea. assert (Hlen : (0 < length a)%nat) by (rewrite Ea; simpl; lia).
  unfold Analyze.gini, gini_closed_form.
  replace (length a =? 0)%nat with false by (symmetry; apply Nat.eqb_neq; lia).
  replace (match a with [] => Some 0 | _ :: _ =>
             fdiv (mean_abs_difference a) (2 * arithmetic_mean a) end)
    with (fdiv (mean_abs_difference a) (2 * arithmetic_mean a))
    by (rewrite Ea; reflexivity).
  unfold mean2, mean. rewrite outer_flat_positions.
  set (diffs := map _ (ordered_pairs (length a))).
  assert (Hpairs : length diffs = length (ordered_pairs (length a)))
    by (unfold diffs; apply length_map).
  assert (Hnn : (0 < length (ordered_pairs (length a)))%nat).
  { unfold ordered_pairs. rewrite length_prod, length_seq. nia. }
  rewrite (fdiv_some (sum diffs)) by (apply of_nat_nonzero; lia).
  rewrite (fdiv_some (sum a)) by (apply of_nat_nonzero; lia).
  simpl mbind. unfold mean_abs_difference, arithmetic_mean. fold diffs.
  rewrite Hpairs.
  set (mad := sum diffs / of_nat (length (ordered_pairs (length a)))).
  set (m := sum a / of_nat (length a)).
  destruct (Qeq_dec m 0) as [Hm|Hm].
  - rewrite (fdiv_none mad m Hm), (fdiv_none mad (2 * m)) by lra.
    simpl. exact I.
  - rewrite (fdiv_some mad m Hm), (fdiv_some mad (2 * m)) by lra.
    simpl. field. exact Hm.
Qed.

(** The variant of stakes.py is the same quotient on every nonempty
    array. *)
Lemma stakes_gini_nonempty (x : Q) (a : list Q) :
  Stakes.gini (x :: a) = Analyze.gini (x :: a).
Proof. reflexivity. Qed.

(** C2, what the code does instead.  [gini] of stakes.py has no case for
    length 0:
    on the empty array it divides the mean of nothing by the mean of
    nothing, a NaN, where [gini] of hist/analyze.py returns 0.0.  On every
    nonempty array the two are the same function, and the one of
    hist/analyze.py is the closed form of the specification on every
    array. *)
Theorem stakes_gini_misses_empty_case :
  Stakes.gini [] = None /\
  Analyze.gini [] = Some 0 /\
  (forall x a, Stakes.gini (x :: a) = Analyze.gini (x :: a)) /\
  (forall a, float_eq (Analyze.gini a) (gini_closed_form a)).
Proof.
  split; [reflexivity|]. split; [reflexivity|]. split.
  - exact stakes_gini_nonempty.
  - exact gini_is_closed_form.
Qed.

End GiniFacts.

(** ** Python dicts *)

Section DictFacts.
Context {K V : Type} `{EqDecision K}.
Implicit Types (d : Py.dict K V) (k : K) (v : V).

Lemma get_set_eq d k v : Py.get k (Py.set k v d) = Some v.
Proof.
  induction d as [|[k' v'] d IH]; simpl.
  - now rewrite decide_True.
  - destruct (decide (k = k')) as [->|Hne]; simpl.
    + now rewrite decide_True.
    + now rewrite decide_False.
Qed.

Lemma get_set_ne d k k' v : k <> k' -> Py.get k' (Py.set k v d) = Py.get k' d.
Proof.
  intros Hne. induction d as [|[k0 v0] d IH]; simpl.
  - rewrite decide_False by congruence. reflexivity.
  - destruct (decide (k = k0)) as [->|Hk]; simpl.
    + rewrite !decide_False by congruence. reflexivity.
    + destruct (decide (k' = k0)); [reflexivity | exact IH].
Qed.

Lemma set_set d k v v' : Py.set k v' (Py.set k v d) = Py.set k v' d.
Proof.
  induction d as [|[k0 v0] d IH]; simpl.
  - now rewrite decide_True.
  - destruct (decide (k = k0)) as [->|Hk]; simpl.
    + now rewrite decide_True.
    + rewrite decide_False by exact Hk. now rewrite IH.
Qed.

Lemma contains_get d k : Py.contains k d = true <-> is_Some (Py.get k d).
Proof.
  unfold Py.contains. destruct (Py.get k d); split; intros H;
    try reflexivity; try discriminate; eauto.
  destruct H as [? H]. discriminate.
Qed.

Lemma get_Some_in d k v : Py.get k d = Some v -> (k, v) ∈ d.
Proof.
  induction d as [|[k0 v0] d IH]; simpl; [discriminate|].
  destruct (decide (k = k0)) as [->|Hk].
  - intros [= ->]. left.
  - intros H. right. now apply IH.
Qed.

Lemma get_None_keys d k : Py.get k d = None <-> k ∉ Py.keys d.
Proof.
  induction d as [|[k0 v0] d IH]; simpl.
  - split; [intros _; apply not_elem_of_nil | reflexivity].
  - rewrite not_elem_of_cons. destruct (decide (k = k0)) as [->|Hk].
    + split; [discriminate | intros [? _]; congruence].
    + rewrite IH. tauto.
Qed.

Lemma in_get d k v : NoDup (Py.keys d) -> (k, v) ∈ d -> Py.get k d = Some v.
Proof.
  induction d as [|[k0 v0] d IH]; simpl; intros Hnd Hin.
  - now apply elem_of_nil in Hin.
  - apply NoDup_cons in Hnd as [Hk0 Hnd].
    apply elem_of_cons in Hin as [[= -> ->]|Hin].
    + now rewrite decide_True.
    + destruct (decide (k = k0)) as [->|Hk]; [|now apply IH].
      exfalso. apply Hk0. unfold Py.keys.
      apply list_elem_of_fmap. exists (k0, v). split; [reflexivity | exact Hin].
Qed.

Lemma keys_set d k v :
  Py.keys (Py.set k v d) =
  if Py.contains k d then Py.keys d else Py.keys d ++ [k].
Proof.
  unfold Py.contains. induction d as [|[k0 v0] d IH]; simpl; [reflexivity|].
  destruct (decide (k = k0)) as [->|Hk]; simpl; [reflexivity|].
  rewrite IH. now destruct (Py.get k d).
Qed.

Lemma NoDup_keys_set d k v : NoDup (Py.keys d) -> NoDup (Py.keys (Py.set k v d)).
Proof.
  intros Hnd. rewrite keys_set.
  destruct (Py.contains k d) eqn:E; [exact Hnd|].
  apply NoDup_app. split; [exact Hnd|]. split.
  - intros x Hx Hx'. apply list_elem_of_singleton in Hx'. subst x.
    assert (Py.get k d = None) as Hn.
    { unfold Py.contains in E. destruct (Py.get k d); [discriminate | reflexivity]. }
    apply get_None_keys in Hn. contradiction.
  - apply NoDup_singleton.
Qed.

(** What a store adds to a sum over the values. *)
Lemma sum_values_set (f : V -> Z) d k v :
  sum_Z (map f (Py.values (Py.set k v d))) =
  (sum_Z (map f (Py.values d)) + f v
   - match Py.get k d with Some o => f o | None => 0 end)%Z.
Proof.
  induction d as [|[k0 v0] d IH]; simpl; [lia|].
  destruct (decide (k = k0)) as [->|Hk]; simpl; [lia|].
  rewrite IH. lia.
Qed.

(** The entry a grouping loop works on after [if k not in d: d[k] =
    fresh]: what was stored, or the new aggregate just stored. *)
Lemma get_after_insert d k fresh :
  let d1 := if Py.contains k d then d else Py.set k fresh d in
  Py.get k d1 = Some (default fresh (Py.get k d)) /\
  forall v, Py.set k v d1 = Py.set k v d.
Proof.
  unfold Py.contains. destruct (Py.get k d) as [v0|] eqn:E; simpl.
  - split; [exact E | reflexivity].
  - split; [apply get_set_eq | intros v; apply set_set].
Qed.

End DictFacts.

(** ** Folding an update over the records of a group *)

Section FoldFacts.
Context {R E : Type} (upd : E -> R -> E).
Implicit Types (g : E) (ms : list R).

Lemma fold_update_sum (f : E -> Z) (c : R -> Z) ms g :
  (forall g v, f (upd g v) = (f g + c v)%Z) ->
  f (fold_left upd ms g) = (f g + sum_Z (map c ms))%Z.
Proof.
  intros Hupd. revert g. induction ms as [|v ms IH]; intros g; simpl; [lia|].
  rewrite IH, Hupd. lia.
Qed.

Lemma fold_update_union (f : E -> gset string) (c : R -> gset string)
    ms g (u : gset string) :
  (forall g v, f (upd g v) = f g ∪ c v) ->
  Forall (fun v => c v = u) ms -> ms <> [] ->
  f (fold_left upd ms g) = f g ∪ u.
Proof.
  intros Hupd Hms. revert g. induction Hms as [|v ms Hv Hms IH]; intros g Hne;
    [congruence|].
  simpl. destruct ms as [|v' ms'].
  - simpl. now rewrite Hupd, Hv.
  - rewrite IH by discriminate. rewrite Hupd, Hv. set_solver.
Qed.

Lemma fold_update_app (f : E -> list R) ms g :
  (forall g v, f (upd g v) = f g ++ [v]) ->
  f (fold_left upd ms g) = f g ++ ms.
Proof.
  intros Hupd. revert g. induction ms as [|v ms IH]; intros g; simpl.
  - now rewrite app_nil_r.
  - rewrite IH, Hupd, <- app_assoc. reflexivity.
Qed.

End FoldFacts.

(** ** The records of a key *)

Section GroupFacts.
Context {R K : Type} `{EqDecision K} (key : R -> K).
Implicit Types (k : K) (v : R) (vs : list R).

Lemma members_cons v vs k :
  group_of key (v :: vs) k =
  if decide (key v = k) then v :: group_of key vs k else group_of key vs k.
Proof.
  unfold group_of. simpl. destruct (decide (key v = k)) as [Hk|Hk].
  - now rewrite bool_decide_eq_true_2.
  - now rewrite bool_decide_eq_false_2.
Qed.

Lemma members_address vs k v : v ∈ group_of key vs k -> key v = k.
Proof.
  unfold group_of. rewrite list_elem_of_In, filter_In.
  intros [_ H]. now apply bool_decide_eq_true in H.
Qed.

Lemma members_in vs k v : v ∈ vs -> key v = k -> v ∈ group_of key vs k.
Proof.
  unfold group_of. rewrite !list_elem_of_In, filter_In.
  intros Hin Hk. split; [exact Hin | now apply bool_decide_eq_true].
Qed.


End GroupFacts.

(** ** Grouping as accumulation per key *)

Section AccumulateFacts.
Context {R K E : Type} `{EqDecision K}.
Context (key : R -> K) (fresh : E) (upd : E -> R -> E).
Implicit Types (gs : Py.dict K E) (k : K) (v : R) (vs : list R).

(** The aggregate stored under [k] after the loop is the update by the
    records with key [k], in input order, of what was stored before. *)
Lemma accumulate_get vs gs k :
  Py.get k (accumulate key fresh upd vs gs) =
  match group_of key vs k with
  | [] => Py.get k gs
  | ms => Some (fold_left upd ms (default fresh (Py.get k gs)))
  end.
Proof.
  revert gs. induction vs as [|v vs IH]; intros gs; [reflexivity|].
  simpl accumulate. change (fold_left (accumulate_step key fresh upd) vs ?g)
    with (accumulate key fresh upd vs g).
  rewrite IH, members_cons. unfold accumulate_step.
  destruct (decide (key v = k)) as [<-|Hk].
  - rewrite get_set_eq. simpl. now destruct (group_of key vs (key v)).
  - now rewrite get_set_ne.
Qed.

Lemma accumulate_NoDup vs gs :
  NoDup (Py.keys gs) -> NoDup (Py.keys (accumulate key fresh upd vs gs)).
Proof.
  revert gs. induction vs as [|v vs IH]; intros gs Hnd; [exact Hnd|].
  apply IH. unfold accumulate_step. now apply NoDup_keys_set.
Qed.

(** A field that every update raises by the contribution [c] of the
    record adds up, over all aggregates, to the contributions of all
    records. *)
Lemma accumulate_sum (f : E -> Z) (c : R -> Z) vs gs :
  f fresh = 0%Z -> (forall g v, f (upd g v) = (f g + c v)%Z) ->
  sum_Z (map f (Py.values (accumulate key fresh upd vs gs))) =
  (sum_Z (map f (Py.values gs)) + sum_Z (map c vs))%Z.
Proof.
  intros Hfresh Hupd. revert gs.
  induction vs as [|v vs IH]; intros gs; [simpl; lia|].
  simpl accumulate. change (fold_left (accumulate_step key fresh upd) vs ?g)
    with (accumulate key fresh upd vs g).
  rewrite IH. unfold accumulate_step. rewrite sum_values_set, Hupd.
  simpl. destruct (Py.get (key v) gs); simpl; [lia | rewrite Hfresh; lia].
Qed.

Lemma concat_values_set (f : E -> list R) gs k e extra :
  f fresh = [] ->
  f e = f (default fresh (Py.get k gs)) ++ extra ->
  concat (map f (Py.values (Py.set k e gs))) ≡ₚ
  concat (map f (Py.values gs)) ++ extra.
Proof.
  intros Hfresh. induction gs as [|[k0 e0] gs IH]; simpl; intros He.
  - rewrite He, Hfresh, !app_nil_r. reflexivity.
  - destruct (decide (k = k0)) as [->|Hk]; simpl.
    + rewrite He. rewrite <- !app_assoc.
      apply Permutation_app_head, Permutation_app_comm.
    + rewrite <- app_assoc. apply Permutation_app_head, IH, He.
Qed.

(** A field that every update extends by the record lists, over all
    aggregates, every record once. *)
Lemma accumulate_concat (f : E -> list R) vs gs :
  f fresh = [] -> (forall g v, f (upd g v) = f g ++ [v]) ->
  concat (map f (Py.values (accumulate key fresh upd vs gs))) ≡ₚ
  concat (map f (Py.values gs)) ++ vs.
Proof.
  intros Hfresh Hupd. revert gs.
  induction vs as [|v vs IH]; intros gs; [now rewrite app_nil_r|].
  simpl accumulate. change (fold_left (accumulate_step key fresh upd) vs ?g)
    with (accumulate key fresh upd vs g).
  rewrite IH. unfold accumulate_step.
  rewrite (concat_values_set f gs _ _ [v] Hfresh (Hupd _ _)).
  rewrite <- app_assoc. reflexivity.
Qed.

(** Every aggregate in the values sits under its key. *)
Lemma values_get gs e :
  NoDup (Py.keys gs) -> e ∈ Py.values gs -> exists k, Py.get k gs = Some e.
Proof.
  intros Hnd He. unfold Py.values in He.
  apply list_elem_of_In, in_map_iff in He as ([k e'] & <- & Hin).
  exists k. apply in_get; [exact Hnd | now apply list_elem_of_In].
Qed.

Lemma get_values gs k e : Py.get k gs = Some e -> e ∈ Py.values gs.
Proof.
  intros H. apply get_Some_in in H. unfold Py.values.
  apply list_elem_of_In, in_map_iff. exists (k, e). split; [reflexivity|].
  now apply list_elem_of_In.
Qed.

End AccumulateFacts.

(** ** [by_address] of hist/analyze.py *)

Section AnalyzeGrouping.

Import Analyze.

Lemma address_set_item v addrs :
  v_rewardAddresses v = Some addrs -> address_set v = frozenset addrs.
Proof. intros H. unfold address_set, addresses. now rewrite H. Qed.

Lemma absorb_ok g v addrs g' :
  v_rewardAddresses v = Some addrs ->
  absorb g v addrs = Py.Ok g' ->
  has_basic_fields v /\ g' = analyze_update g v.
Proof.
  intros Ha. unfold absorb, has_basic_fields, analyze_update, ids,
    own_weight, total_weight, addresses.
  rewrite Ha.
  destruct (v_id v) as [vid|]; simpl; [|discriminate].
  destruct (v_weight v) as [w|]; simpl; [|discriminate].
  destruct (v_totalWeight v) as [tw|]; simpl; [|discriminate].
  intros [= <-]. repeat split; eauto.
Qed.

Lemma absorb_total g v addrs :
  v_rewardAddresses v = Some addrs -> has_basic_fields v ->
  absorb g v addrs = Py.Ok (analyze_update g v).
Proof.
  intros Ha ([vid Hid] & _ & [w Hw] & [tw Htw]).
  unfold absorb, analyze_update, ids, own_weight, total_weight, addresses.
  now rewrite Ha, Hid, Hw, Htw.
Qed.

Lemma by_address_step_ok gs v gs' :
  by_address_step gs v = Py.Ok gs' ->
  has_basic_fields v /\ gs' = accumulate_step address_set new_entity analyze_update gs v.
Proof.
  unfold by_address_step, accumulate_step, groups.
  destruct (v_rewardAddresses v) as [addrs|] eqn:Ha; simpl; [|discriminate].
  rewrite (address_set_item v addrs Ha).
  destruct (get_after_insert gs (frozenset addrs) new_entity) as [Hget Hset].
  cbv zeta in Hget, Hset. rewrite Hget. simpl.
  destruct (absorb _ v addrs) as [g'|] eqn:Hab; simpl; [|discriminate].
  intros [= <-]. apply absorb_ok in Hab as [Hf ->]; [|exact Ha].
  split; [exact Hf | apply Hset].
Qed.

Lemma by_address_step_total gs v :
  has_basic_fields v ->
  by_address_step gs v = Py.Ok (accumulate_step address_set new_entity analyze_update gs v).
Proof.
  intros Hf. pose proof Hf as (_ & [addrs Ha] & _).
  unfold by_address_step, accumulate_step, groups. rewrite Ha. simpl.
  rewrite (address_set_item v addrs Ha).
  destruct (get_after_insert gs (frozenset addrs) new_entity) as [Hget Hset].
  cbv zeta in Hget, Hset. rewrite Hget. simpl.
  rewrite (absorb_total _ v addrs Ha Hf). simpl. now rewrite Hset.
Qed.

Lemma by_address_loop_ok vs gs gs' :
  by_address_loop vs gs = Py.Ok gs' ->
  Forall has_basic_fields vs /\ gs' = accumulate address_set new_entity analyze_update vs gs.
Proof.
  revert gs. induction vs as [|v vs IH]; intros gs; simpl.
  - intros [= <-]. split; [constructor | reflexivity].
  - destruct (by_address_step gs v) as [gs1|] eqn:Hstep; simpl; [|discriminate].
    intros Hloop. apply by_address_step_ok in Hstep as [Hf ->].
    apply IH in Hloop as [Hfs ->]. split; [now constructor | reflexivity].
Qed.

Lemma by_address_loop_total vs gs :
  Forall has_basic_fields vs ->
  by_address_loop vs gs = Py.Ok (accumulate address_set new_entity analyze_update vs gs).
Proof.
  intros Hfs. revert gs. induction Hfs as [|v vs Hf Hfs IH]; intros gs; simpl.
  - reflexivity.
  - rewrite (by_address_step_total gs v Hf). simpl. apply IH.
Qed.

(** [by_address] returns exactly when every record has the fields it
    indexes, and then with the values of the accumulation. *)
Lemma by_address_ok vs es :
  by_address vs = Py.Ok es <->
  Forall has_basic_fields vs /\
  es = Py.values (accumulate address_set new_entity analyze_update vs []).
Proof.
  unfold by_address. split.
  - destruct (by_address_loop vs []) as [gs|] eqn:Hloop; simpl; [|discriminate].
    intros [= <-]. apply by_address_loop_ok in Hloop as [Hfs ->]. now split.
  - intros [Hfs ->]. now rewrite (by_address_loop_total vs [] Hfs).
Qed.

Lemma fold_update_ids ms g :
  e_id (fold_left analyze_update ms g) =
  e_id g ∪ list_to_set (concat (map ids ms)).
Proof.
  revert g. induction ms as [|v ms IH]; intros g; simpl.
  - set_solver.
  - rewrite IH. simpl. rewrite list_to_set_app_L. set_solver.
Qed.

Lemma members_Forall vs k : Forall (fun v => address_set v = k) (members vs k).
Proof.
  apply Forall_forall. intros v Hv. now apply members_address in Hv.
Qed.

(** The aggregate stored for [k]: there is one exactly when [k] has
    members, and it carries [k] and the sums over the members. *)
Lemma by_address_entity vs k e :
  Py.get k (accumulate address_set new_entity analyze_update vs []) = Some e ->
  members vs k <> [] /\
  e_rewardAddresses e = k /\
  e_totalWeight e = sum_Z (map total_weight (members vs k)) /\
  e_weight e = sum_Z (map own_weight (members vs k)) /\
  e_delegatorWeight e = sum_Z (map get_delegator_weight (members vs k)) /\
  e_id e = list_to_set (concat (map ids (members vs k))).
Proof.
  rewrite accumulate_get. simpl Py.get.
  destruct (members vs k) as [|m ms] eqn:Hm; [discriminate|].
  intros He.
  assert (e = fold_left analyze_update (m :: ms) new_entity) as ->
    by (simpl in He |- *; congruence).
  split; [discriminate|].
  pose proof (members_Forall vs k) as HF. rewrite Hm in HF.
  split; [|split; [|split; [|split]]].
  - rewrite (fold_update_union analyze_update e_rewardAddresses address_set _ _ k)
      by (try reflexivity; try discriminate; exact HF).
    simpl. set_solver.
  - rewrite (fold_update_sum analyze_update e_totalWeight total_weight)
      by reflexivity. simpl. lia.
  - rewrite (fold_update_sum analyze_update e_weight own_weight)
      by reflexivity. simpl. lia.
  - rewrite (fold_update_sum analyze_update e_delegatorWeight get_delegator_weight)
      by reflexivity. simpl. lia.
  - rewrite fold_update_ids. simpl e_id. set_solver.
Qed.

End AnalyzeGrouping.

Section GroupingClaims.

Import Analyze.

Lemma NoDup_map_inj {A B} (f : A -> B) (l : list A) x y :
  NoDup (map f l) -> x ∈ l -> y ∈ l -> f x = f y -> x = y.
Proof.
  induction l as [|a l IH]; simpl; intros Hnd Hx Hy Hf.
  - now apply elem_of_nil in Hx.
  - apply NoDup_cons in Hnd as [Ha Hnd].
    apply elem_of_cons in Hx as [->|Hx]; apply elem_of_cons in Hy as [->|Hy].
    + reflexivity.
    + exfalso. apply Ha. rewrite Hf.
      apply list_elem_of_In, in_map, list_elem_of_In, Hy.
    + exfalso. apply Ha. rewrite <- Hf.
      apply list_elem_of_In, in_map, list_elem_of_In, Hx.
    + now apply IH.
Qed.

(** The entities returned carry pairwise different address sets. *)
Lemma by_address_keys vs :
  let gs := accumulate address_set new_entity analyze_update vs [] in
  map e_rewardAddresses (Py.values gs) = Py.keys gs.
Proof.
  intros gs.
  assert (Hnd : NoDup (Py.keys gs)) by (apply accumulate_NoDup; constructor).
  assert (Hall : forall k e, (k, e) ∈ gs -> e_rewardAddresses e = k).
  { intros k e Hin. apply (in_get _ _ _ Hnd) in Hin.
    now apply by_address_entity in Hin as (_ & H & _). }
  clearbody gs. clear Hnd. unfold Py.values, Py.keys.
  induction gs as [|[k e] gs IH]; [reflexivity|].
  simpl. rewrite (Hall k e) by left. f_equal. apply IH.
  intros k' e' Hin. apply Hall. now right.
Qed.

(** What [by_address] returns, whenever it returns. *)
Lemma by_address_returns_groups
    (validators : list validator) (entities : list entity) :
  by_address validators = Py.Ok entities ->
  NoDup (map e_rewardAddresses entities) /\
  (forall v, v ∈ validators ->
     exists e, e ∈ entities /\ e_rewardAddresses e = address_set v) /\
  (forall e, e ∈ entities ->
     members validators (e_rewardAddresses e) <> [] /\
     e_totalWeight e =
       sum_Z (map total_weight (members validators (e_rewardAddresses e))) /\
     e_weight e =
       sum_Z (map own_weight (members validators (e_rewardAddresses e))) /\
     e_delegatorWeight e =
       sum_Z (map get_delegator_weight
                (members validators (e_rewardAddresses e))) /\
     e_id e =
       list_to_set (concat (map ids (members validators (e_rewardAddresses e))))) /\
  (forall v1 v2 e1 e2,
     v1 ∈ validators -> v2 ∈ validators -> e1 ∈ entities -> e2 ∈ entities ->
     e_rewardAddresses e1 = address_set v1 ->
     e_rewardAddresses e2 = address_set v2 ->
     (e1 = e2 <-> (forall a, a ∈ addresses v1 <-> a ∈ addresses v2))).
Proof.
  intros Hok. apply by_address_ok in Hok as [Hfs ->].
  set (gs := accumulate address_set new_entity analyze_update validators []).
  assert (Hnd : NoDup (Py.keys gs)) by (apply accumulate_NoDup; constructor).
  assert (Hkeys : NoDup (map e_rewardAddresses (Py.values gs))).
  { unfold gs. rewrite by_address_keys. exact Hnd. }
  split; [exact Hkeys|]. split; [|split].
  - intros v Hv.
    destruct (Py.get (address_set v) gs) as [e|] eqn:He.
    + exists e. split; [eapply get_values; exact He|].
      now apply by_address_entity in He as (_ & H & _).
    + exfalso. unfold gs in He. rewrite accumulate_get in He.
      pose proof (members_in address_set validators _ v Hv eq_refl) as Hm.
      destruct (members validators (address_set v)); [|discriminate].
      now apply elem_of_nil in Hm.
  - intros e He. destruct (values_get gs e Hnd He) as [k Hk].
    apply by_address_entity in Hk as (Hm & <- & Htw & Hw & Hd & Hid).
    repeat split; assumption.
  - intros v1 v2 e1 e2 _ _ He1 He2 Hk1 Hk2.
    assert (Hset : address_set v1 = address_set v2 <->
                   (forall a, a ∈ addresses v1 <-> a ∈ addresses v2)).
    { unfold address_set, frozenset. split.
      - intros Heq a. rewrite <- !(elem_of_list_to_set (C := gset string)).
        now rewrite Heq.
      - intros Heq. apply set_eq. intros a.
        rewrite !elem_of_list_to_set. apply Heq. }
    rewrite <- Hset. split.
    + intros ->. congruence.
    + intros Heq. apply (NoDup_map_inj e_rewardAddresses (Py.values gs));
        [exact Hkeys | exact He1 | exact He2 | congruence].
Qed.

(** C4.  On validator records that have the fields it indexes,
    [by_address] returns entities such that: the entities have pairwise
    different address sets (one per set); every validator has an entity
    with its address set; every entity has a member and carries the sums
    (totalWeight, weight, delegatorWeight) and the ids of exactly the
    validators whose address set is its own; and two validators fall into
    the same entity if and only if their reward-address lists hold the same
    addresses, whatever the order and the repetitions, so that overlapping
    but different sets stay apart. *)
Theorem by_address_merges_equal_sets (validators : list validator) :
  Forall has_basic_fields validators ->
  exists entities,
  by_address validators = Py.Ok entities /\
  NoDup (map e_rewardAddresses entities) /\
  (forall v, v ∈ validators ->
     exists e, e ∈ entities /\ e_rewardAddresses e = address_set v) /\
  (forall e, e ∈ entities ->
     members validators (e_rewardAddresses e) <> [] /\
     e_totalWeight e =
       sum_Z (map total_weight (members validators (e_rewardAddresses e))) /\
     e_weight e =
       sum_Z (map own_weight (members validators (e_rewardAddresses e))) /\
     e_delegatorWeight e =
       sum_Z (map get_delegator_weight
                (members validators (e_rewardAddresses e))) /\
     e_id e =
       list_to_set (concat (map ids (members validators (e_rewardAddresses e))))) /\
  (forall v1 v2 e1 e2,
     v1 ∈ validators -> v2 ∈ validators -> e1 ∈ entities -> e2 ∈ entities ->
     e_rewardAddresses e1 = address_set v1 ->
     e_rewardAddresses e2 = address_set v2 ->
     (e1 = e2 <-> (forall a, a ∈ addresses v1 <-> a ∈ addresses v2))).
Proof.
  intros Hfs.
  assert (Hok : by_address validators =
    Py.Ok (Py.values (accumulate address_set new_entity analyze_update validators [])))
    by (apply by_address_ok; split; [exact Hfs | reflexivity]).
  eexists. split; [exact Hok|].
  exact (by_address_returns_groups _ _ Hok).
Qed.

End GroupingClaims.

(** ** [by_address_ext] of hist/nakamoto_analysis.py *)

Section ExtGrouping.

Import NakamotoAnalysis.

Variable str : list string -> string.

Lemma with_addresses_cons v vs :
  with_addresses (v :: vs) =
  if decide (address_set v = ∅) then with_addresses vs
  else v :: with_addresses vs.
Proof.
  unfold with_addresses. simpl. destruct (decide (address_set v = ∅)) as [Hk|Hk].
  - now rewrite bool_decide_eq_true_2.
  - now rewrite bool_decide_eq_false_2.
Qed.

Lemma members_with_addresses vs k :
  k <> ∅ -> members (with_addresses vs) k = members vs k.
Proof.
  intros Hk. induction vs as [|v vs IH]; [reflexivity|].
  rewrite with_addresses_cons, (members_cons address_set v vs).
  destruct (decide (address_set v = ∅)) as [He|He].
  - rewrite IH. destruct (decide (address_set v = k)); [congruence | reflexivity].
  - rewrite members_cons, IH. reflexivity.
Qed.

Lemma members_with_addresses_empty vs : members (with_addresses vs) ∅ = [].
Proof.
  induction vs as [|v vs IH]; [reflexivity|].
  rewrite with_addresses_cons.
  destruct (decide (address_set v = ∅)) as [He|He]; [exact IH|].
  rewrite members_cons, IH. now destruct (decide (address_set v = ∅)).
Qed.

(** A turn of the loop skips a record without addresses and accumulates
    any other; it never fails. *)
Lemma by_address_ext_step_eq gs v :
  by_address_ext_step str gs v =
  Py.Ok (if decide (address_set v = ∅) then gs
         else accumulate_step address_set new_entity (absorb str) gs v).
Proof.
  unfold by_address_ext_step, accumulate_step, groups.
  change (frozenset (default [] (v_rewardAddresses v))) with (address_set v).
  destruct (decide (address_set v = ∅)) as [He|He]; [reflexivity|].
  destruct (get_after_insert gs (address_set v) new_entity) as [Hget Hset].
  cbv zeta in Hget, Hset. rewrite Hget. simpl. now rewrite Hset.
Qed.

Lemma by_address_ext_loop_eq vs gs :
  by_address_ext_loop str vs gs =
  Py.Ok (accumulate address_set new_entity (absorb str) (with_addresses vs) gs).
Proof.
  revert gs. induction vs as [|v vs IH]; intros gs; [reflexivity|].
  rewrite with_addresses_cons.
  simpl by_address_ext_loop. rewrite by_address_ext_step_eq.
  unfold Py.bind. rewrite IH.
  now destruct (decide (address_set v = ∅)).
Qed.

Lemma by_address_ext_eq vs :
  by_address_ext str vs =
  Py.Ok (Py.values (accumulate address_set new_entity (absorb str) (with_addresses vs) [])).
Proof.
  unfold by_address_ext. now rewrite by_address_ext_loop_eq.
Qed.

(** The aggregate stored for [k]: its address set is [k], not empty, it
    keeps the validators with that set in input order, and its sums run
    over them. *)
Lemma by_address_ext_entity vs k e :
  Py.get k (accumulate address_set new_entity (absorb str) (with_addresses vs) []) = Some e ->
  k <> ∅ /\
  e_rewardAddresses e = k /\
  e_validators e = members vs k /\
  members vs k <> [] /\
  e_totalWeight e = sum_Z (map total_weight (members vs k)) /\
  e_weight e = sum_Z (map own_weight (members vs k)) /\
  e_delegatorWeight e = sum_Z (map get_delegator_weight (members vs k)).
Proof.
  rewrite accumulate_get. simpl Py.get.
  destruct (decide (k = ∅)) as [->|Hk].
  { rewrite members_with_addresses_empty. discriminate. }
  rewrite (members_with_addresses vs k Hk).
  destruct (members vs k) as [|m ms] eqn:Hm; [discriminate|].
  intros He.
  assert (e = fold_left (absorb str) (m :: ms) new_entity) as ->
    by (simpl in He |- *; congruence).
  pose proof (members_Forall vs k) as HF. rewrite Hm in HF.
  split; [exact Hk|]. split; [|split; [|split; [|split; [|split]]]].
  - rewrite (fold_update_union (absorb str) e_rewardAddresses address_set _ _ k)
      by (try reflexivity; try discriminate; exact HF).
    simpl. set_solver.
  - rewrite (fold_update_app (absorb str) e_validators) by reflexivity.
    reflexivity.
  - discriminate.
  - rewrite (fold_update_sum (absorb str) e_totalWeight total_weight)
      by reflexivity. simpl. lia.
  - rewrite (fold_update_sum (absorb str) e_weight own_weight)
      by reflexivity. simpl. lia.
  - rewrite (fold_update_sum (absorb str) e_delegatorWeight get_delegator_weight)
      by reflexivity. simpl. lia.
Qed.

(** C3, as the code has it.  [by_address_ext] always returns; each of
    its entities has a non-empty address set, keeps as members exactly the
    input validators with that set, and its totalWeight is the sum of
    theirs; the members of all entities are the input validators with a
    non-empty address set, each once; and the totalWeight of all entities
    adds up to that of those validators.  [by_address] of hist/analyze.py
    drops nothing: on records that have the fields it indexes it returns
    entities whose totalWeight is the sum over the input validators with
    their address set, and the totalWeight of all entities adds up to that
    of all input validators, those without reward addresses included. *)
Theorem grouping_conserves_stake (validators : list validator) :
  (exists entities,
     by_address_ext str validators = Py.Ok entities /\
     (forall e, e ∈ entities ->
        e_rewardAddresses e <> ∅ /\
        e_validators e = members validators (e_rewardAddresses e) /\
        e_totalWeight e = sum_Z (map total_weight (e_validators e))) /\
     concat (map e_validators entities) ≡ₚ with_addresses validators /\
     sum_Z (map e_totalWeight entities) =
     sum_Z (map total_weight (with_addresses validators))) /\
  (Forall has_basic_fields validators ->
   exists entities,
     Analyze.by_address validators = Py.Ok entities /\
     (forall e, e ∈ entities ->
        Analyze.e_totalWeight e =
        sum_Z (map total_weight
                 (members validators (Analyze.e_rewardAddresses e)))) /\
     sum_Z (map Analyze.e_totalWeight entities) =
     sum_Z (map total_weight validators)).
Proof.
  split.
  - eexists. split; [apply by_address_ext_eq|].
    set (gs := accumulate address_set new_entity (absorb str) (with_addresses validators) []).
    assert (Hnd : NoDup (Py.keys gs)) by (apply accumulate_NoDup; constructor).
    split; [|split].
    + intros e He. destruct (values_get gs e Hnd He) as [k Hk].
      apply by_address_ext_entity in Hk as (Hne & <- & Hv & _ & Htw & _).
      rewrite Hv. repeat split; assumption.
    + unfold gs. rewrite (accumulate_concat address_set new_entity (absorb str) e_validators)
        by reflexivity. reflexivity.
    + unfold gs. rewrite (accumulate_sum address_set new_entity (absorb str)
                            e_totalWeight total_weight) by reflexivity.
      simpl. lia.
  - intros Hfs. eexists.
    split; [apply by_address_ok; split; [exact Hfs | reflexivity]|].
    set (gs := accumulate address_set Analyze.new_entity analyze_update validators []).
    assert (Hnd : NoDup (Py.keys gs)) by (apply accumulate_NoDup; constructor).
    split.
    + intros e He. destruct (values_get gs e Hnd He) as [k Hk].
      now apply by_address_entity in Hk as (_ & <- & Htw & _).
    + unfold gs. rewrite (accumulate_sum address_set Analyze.new_entity analyze_update
                            Analyze.e_totalWeight total_weight) by reflexivity.
      simpl. lia.
Qed.

End ExtGrouping.

(** C3 as stated fails for [by_address] of hist/analyze.py on a validator
    without reward addresses: it becomes an entity with its 5 units of
    stake, while the validators with a non-empty address set hold none. *)
Lemma by_address_keeps_empty_address_set :
  Analyze.by_address [validator_no_address "n1" 5] =
  Py.Ok [ {| Analyze.e_id := {[ "n1" ]}; Analyze.e_rewardAddresses := ∅;
             Analyze.e_weight := 5; Analyze.e_delegatorWeight := 0;
             Analyze.e_totalWeight := 5 |} ] /\
  sum_Z (map total_weight (with_addresses [validator_no_address "n1" 5])) = 0%Z.
Proof. split; vm_compute; reflexivity. Qed.

(** ** stakes.py: the grouper and its default argument *)

Section StakesGrouping.

Import Stakes.

Lemma stakes_loop_app vs1 vs2 gs :
  by_address_loop (vs1 ++ vs2) gs =
  match by_address_loop vs1 gs with
  | (Py.Ok _, gs') => by_address_loop vs2 gs'
  | (Py.Raise e, gs') => (Py.Raise e, gs')
  end.
Proof.
  revert gs. induction vs1 as [|v vs1 IH]; intros gs; [reflexivity|].
  simpl. destruct (by_address_step v gs) as [[u|e] gs']; [apply IH | reflexivity].
Qed.

(** Whether a turn of the loop fails, and how, is decided by the record
    alone. *)
Lemma stakes_step_outcome v gs1 gs2 :
  fst (by_address_step v gs1) = fst (by_address_step v gs2).
Proof.
  unfold by_address_step.
  destruct (v_rewardAddresses v), (v_id v), (v_weight v),
    (v_delegatedWeight v), (v_totalWeight v); reflexivity.
Qed.

Lemma stakes_loop_outcome vs gs1 gs2 :
  fst (by_address_loop vs gs1) = fst (by_address_loop vs gs2).
Proof.
  revert gs1 gs2. induction vs as [|v vs IH]; intros gs1 gs2; [reflexivity|].
  simpl. pose proof (stakes_step_outcome v gs1 gs2) as Hstep.
  destruct (by_address_step v gs1) as [[u1|e1] g1],
    (by_address_step v gs2) as [[u2|e2] g2]; simpl in Hstep;
    try discriminate.
  - apply IH.
  - exact Hstep.
Qed.

(** Two calls in a row return, the second time, what one call on the two
    inputs one after the other returns. *)
Lemma by_address_twice_is_once_on_both vs :
  snd (by_address_twice vs vs) = fst (by_address (vs ++ vs) groups_default).
Proof.
  unfold by_address_twice, by_address. rewrite stakes_loop_app.
  pose proof (stakes_loop_outcome vs groups_default) as Hout.
  destruct (by_address_loop vs groups_default) as [[u|e] gs1].
  - destruct (by_address_loop vs gs1) as [[u'|e'] gs2]; reflexivity.
  - specialize (Hout gs1). simpl in Hout.
    destruct (by_address_loop vs gs1) as [[u'|e'] gs2]; simpl in Hout;
      [discriminate|].
    simpl. congruence.
Qed.

(** C5, what the code does instead.  Two calls of [by_address] of
    stakes.py on the same two validators: the first returns one entity with
    totalWeight 12, the second returns it with totalWeight 24, because the
    dict of the default argument keeps the groups of the first call.  On
    every input the second of two calls returns what a single call on the
    input taken twice returns. *)
Theorem by_address_default_carries_state :
  (let validators := [validator_of "n1" "X" 5 0 5; validator_of "n2" "X" 6 1 7] in
   by_address_twice validators validators =
   (Py.Ok [ {| e_id := {[ "n1"; "n2" ]}; e_rewardAddresses := {[ "X" ]};
               e_weight := 11; e_delegatedWeight := 1; e_totalWeight := 12 |} ],
    Py.Ok [ {| e_id := {[ "n1"; "n2" ]}; e_rewardAddresses := {[ "X" ]};
               e_weight := 22; e_delegatedWeight := 2; e_totalWeight := 24 |} ])) /\
  (forall vs,
     snd (by_address_twice vs vs) = fst (by_address (vs ++ vs) groups_default)).
Proof.
  split; [vm_compute; reflexivity | exact by_address_twice_is_once_on_both].
Qed.

(** C6, what the code does instead.  A validator of the newer snapshots,
    its delegated stake under [delegatorWeight]: [by_address] of stakes.py
    raises [KeyError], [by_address] of hist/analyze.py groups it. *)
Theorem by_address_needs_delegatedWeight :
  let v := validator_new_format "n1" "X" 5 2 7 in
  by_address [v] groups_default =
    (Py.Raise (Py.KeyError "delegatedWeight"), groups_default) /\
  Analyze.by_address [v] =
    Py.Ok [ {| Analyze.e_id := {[ "n1" ]}; Analyze.e_rewardAddresses := {[ "X" ]};
               Analyze.e_weight := 5; Analyze.e_delegatorWeight := 2;
               Analyze.e_totalWeight := 7 |} ].
Proof. split; vm_compute; reflexivity. Qed.

(** The delegated weight the groupers of hist/ take from a record. *)
Lemma get_delegator_weight_cases v :
  get_delegator_weight v =
  match v_delegatorWeight v, v_delegatedWeight v with
  | Some d, _ => d
  | None, Some d => d
  | None, None => 0%Z
  end.
Proof.
  unfold get_delegator_weight.
  destruct (v_delegatorWeight v), (v_delegatedWeight v); reflexivity.
Qed.

(** The groupers of hist/ never fail for the delegated weight: the one
    of analyze.py returns as soon as the four fields it indexes are
    there, the extended one always. *)
Lemma hist_groupers_accept_either_name str vs :
  (Forall has_basic_fields vs -> exists es, Analyze.by_address vs = Py.Ok es) /\
  (exists es, NakamotoAnalysis.by_address_ext str vs = Py.Ok es).
Proof.
  split.
  - intros Hfs. eexists. apply by_address_ok. split; [exact Hfs | reflexivity].
  - eexists. apply by_address_ext_eq.
Qed.

End StakesGrouping.

(** ** stakes.py: the seeded reference generators *)

Section GeneratorFacts.

Import Stakes.

Variable bit_generator : Type.
Variable seeded : Z -> Py.result bit_generator.
Variable uniform : bit_generator -> nat -> list Q.

Lemma seed_argument_nonzero s : s <> 0%Z -> seed_argument s = Some s.
Proof. intros Hs. unfold seed_argument. now rewrite decide_False. Qed.

(** C9, as the code has it.  For every seed other than 0, [gini_33] and
    [gini_66] hand that seed to the generator, and two runs with the
    same seed and the same input array return the same, whatever the
    entropy of the operating system at each run. *)
Theorem seeded_generators_deterministic
    (args_seed : Z) (os_entropy1 os_entropy2 : bit_generator) (a : list Q) :
  args_seed <> 0%Z ->
  seed_argument args_seed = Some args_seed /\
  prng bit_generator seeded (seed_argument args_seed) os_entropy1 =
    seeded args_seed /\
  gini_33 bit_generator seeded uniform args_seed os_entropy1 a =
    gini_33 bit_generator seeded uniform args_seed os_entropy2 a /\
  gini_66 bit_generator seeded uniform args_seed os_entropy1 a =
    gini_66 bit_generator seeded uniform args_seed os_entropy2 a.
Proof.
  intros Hs. unfold gini_33, gini_66.
  rewrite (seed_argument_nonzero args_seed Hs). simpl prng.
  repeat split; reflexivity.
Qed.

End GeneratorFacts.

(** C9 as stated fails for the seed 0: it is a false value, so the
    generator is built without a seed, and two runs with [--seed 0] on the
    same array draw from whatever entropy each finds. *)
Lemma seed_zero_is_no_seed :
  Stakes.seed_argument 0%Z = None /\
  exists d1 d2,
    Stakes.gini_33 Z toy_seeded toy_uniform 0%Z 1%Z [1; 2] = Py.Ok d1 /\
    Stakes.gini_33 Z toy_seeded toy_uniform 0%Z 2%Z [1; 2] = Py.Ok d2 /\
    reduced (Stakes.pdf d1) = Some [1; 3 # 4] /\
    reduced (Stakes.pdf d2) = Some [1; 4 # 5].
Proof.
  split; [reflexivity|].
  eexists. eexists. split; [reflexivity|]. split; [reflexivity|].
  split; vm_compute; reflexivity.
Qed.

(** ** Quarterly date selection *)

Section QuarterlyFacts.

Import Analyze.

(** *** The order of strings *)

Lemma ascii_compare_trans_le a b c :
  Ascii.compare a b <> Gt -> Ascii.compare b c <> Gt -> Ascii.compare a c <> Gt.
Proof.
  unfold Ascii.compare. rewrite !N.compare_le_iff. lia.
Qed.


Lemma ascii_compare_le_lt a b c :
  Ascii.compare a b <> Gt -> Ascii.compare b c = Lt -> Ascii.compare a c = Lt.
Proof.
  unfold Ascii.compare. rewrite N.compare_le_iff, !N.compare_lt_iff. lia.
Qed.





(** *** The order of the quarters *)









(** *** The loops *)









(** *** Zero-padded dates: the order of the strings is the order of the days *)




Lemma digit_not_space c x : Datetime.digit c = Some x -> c <> " "%char.
Proof. intros H ->. discriminate. Qed.












(** *** The pick of a quarter *)









(** *** The dates with extended data *)







End QuarterlyFacts.

(** * Further properties *)

(** ** More on [nakamoto]: what it depends on, thresholds out of range *)

Section NakamotoMore.

Import Numpy.












End NakamotoMore.

(** ** [get_nakamoto_set] of hist/nakamoto_analysis.py *)

Section NakamotoSetFacts.

Import Numpy NakamotoAnalysis NakamotoSet.

Lemma fold_left_add l a : fold_left Z.add l a = (a + sum_Z l)%Z.
Proof.
  revert a. induction l as [|x l IH]; intros a; simpl; [lia|].
  rewrite IH. lia.
Qed.

Lemma total_stake_sum es : sum_totalWeight es = stake_of es.
Proof. unfold sum_totalWeight, stake_of. rewrite fold_left_add. lia. Qed.




Lemma insert_by_stake_perm e l : Permutation (insert_by_stake e l) (e :: l).
Proof.
  induction l as [|e' l IH]; simpl; [reflexivity|].
  destruct (_ <=? _)%Z; [reflexivity|].
  rewrite IH. apply perm_swap.
Qed.

Lemma sorted_by_stake_perm es : Permutation (sorted_by_stake es) es.
Proof.
  induction es as [|e es IH]; simpl; [reflexivity|].
  rewrite insert_by_stake_perm. now constructor.
Qed.





(** The loop returns the shortest nonempty prefix whose running total
    reaches the target, and the whole list when none does. *)
Lemma nakamoto_loop_spec target l : forall c acc,
  exists k,
    nakamoto_loop l c target acc = acc ++ firstn k l /\
    (k <= length l)%nat /\
    (l <> [] -> (1 <= k)%nat) /\
    (forall j, (1 <= j < k)%nat ->
       inject_Z (c + stake_of (firstn j l)) < target) /\
    ((exists j, (1 <= j <= length l)%nat /\
                target <= inject_Z (c + stake_of (firstn j l))) ->
     target <= inject_Z (c + stake_of (firstn k l))).
Proof.
  induction l as [|e rest IH]; intros c acc.
  - exists 0%nat. simpl. rewrite app_nil_r.
    repeat split; try lia; try congruence.
    intros (j & Hj & _). simpl in Hj. lia.
  - simpl nakamoto_loop.
    destruct (Qle_bool target (inject_Z (c + e_totalWeight e))) eqn:Eb.
    + exists 1%nat. apply Qle_bool_iff in Eb.
      split; [reflexivity|]. split; [simpl; lia|]. split; [lia|].
      split; [intros j Hj; lia|]. intros _.
      unfold stake_of. simpl. now rewrite Z.add_0_r.
    + assert (Hlt : inject_Z (c + e_totalWeight e) < target).
      { apply Qnot_le_lt. intros H. apply Qle_bool_iff in H. congruence. }
      destruct (IH (c + e_totalWeight e)%Z (acc ++ [e])) as (k & Hk & Hlen & Hne & Hmin & Hcov).
      exists (S k). split; [rewrite Hk, <- app_assoc; reflexivity|].
      split; [simpl; lia|]. split; [lia|]. split.
      * intros j Hj. destruct j as [|j]; [lia|].
        unfold stake_of. simpl firstn. simpl map. simpl sum_Z.
        destruct j as [|j].
        -- simpl. now rewrite Z.add_0_r.
        -- specialize (Hmin (S j) ltac:(lia)). unfold stake_of in Hmin.
           now rewrite Z.add_assoc.
      * intros (j & Hj & Hreach). destruct j as [|j]; [lia|].
        unfold stake_of in *. simpl firstn in *. simpl map in *. simpl sum_Z in *.
        rewrite Z.add_assoc in *. apply Hcov.
        destruct j as [|j].
        -- exfalso. simpl in Hreach. rewrite Z.add_0_r in Hreach. lra.
        -- exists (S j). split; [simpl in Hj; lia | exact Hreach].
Qed.

Lemma stake_of_perm a b : Permutation a b -> stake_of a = stake_of b.
Proof.
  unfold stake_of. induction 1; simpl; lia.
Qed.

Lemma stake_of_nonneg es :
  Forall (fun e => (0 <= e_totalWeight e)%Z) es -> (0 <= stake_of es)%Z.
Proof.
  unfold stake_of. induction 1; simpl; lia.
Qed.

(** What [get_nakamoto_set] returns, as a number of leading entities of
    the stake order. *)
Lemma get_nakamoto_set_prefix es t :
  exists k,
    get_nakamoto_set es t = firstn k (sorted_by_stake es) /\
    (k <= length es)%nat /\
    (es <> [] -> (1 <= k)%nat) /\
    (forall j, (1 <= j < k)%nat ->
       inject_Z (stake_of (firstn j (sorted_by_stake es))) <
       inject_Z (stake_of es) * t) /\
    (Forall (fun e => (0 <= e_totalWeight e)%Z) es -> t <= 1 ->
     inject_Z (stake_of es) * t <=
     inject_Z (stake_of (firstn k (sorted_by_stake es)))).
Proof.
  unfold get_nakamoto_set. rewrite total_stake_sum.
  pose proof (sorted_by_stake_perm es) as Hp.
  pose proof (Permutation_length Hp) as Hlen.
  destruct (nakamoto_loop_spec (inject_Z (stake_of es) * t) (sorted_by_stake es) 0%Z [])
    as (k & Hk & Hkl & Hne & Hmin & Hcov).
  exists k. split; [exact Hk|]. split; [lia|]. split.
  { intros He. apply Hne. intros E. rewrite E in Hp.
    apply Permutation_nil in Hp. congruence. }
  split; [exact Hmin|].
  intros Hnn Ht.
  pose proof (stake_of_nonneg es Hnn) as Hs.
  assert (Htot : inject_Z (stake_of es) * t <= inject_Z (stake_of es)).
  { assert (0 <= inject_Z (stake_of es)) by (change 0 with (inject_Z 0); rewrite <- Zle_Qle; exact Hs).
    nra. }
  destruct es as [|e0 es0] eqn:Ees.
  { assert (k = 0%nat) as -> by (simpl in Hkl; lia). simpl.
    unfold stake_of. simpl. unfold inject_Z. lra. }
  rewrite <- Ees in *. apply Hcov.
  exists (length (sorted_by_stake es)). split.
  - rewrite Hlen, Ees. simpl. lia.
  - rewrite firstn_all. simpl Z.add. rewrite (stake_of_perm _ _ Hp). exact Htot.
Qed.






End NakamotoSetFacts.

(** ** More on [gini]: range, invariance, the undefined case *)

Section GiniMore.

Import Numpy.




Lemma abs_differences_nil_l b : abs_differences [] b == 0.
Proof. reflexivity. Qed.













Lemma length_outer a :
  length (concat (abs2 (subtract_outer a a))) = (length a * length a)%nat.
Proof. rewrite outer_flat, length_map, length_prod. reflexivity. Qed.

Lemma of_nat_mul n m : of_nat (n * m) == of_nat n * of_nat m.
Proof.
  unfold of_nat. rewrite Nat2Z.inj_mul, inject_Z_mult. reflexivity.
Qed.

Lemma of_nat_pos n : (0 < n)%nat -> 0 < of_nat n.
Proof.
  intros H. unfold of_nat. change 0 with (inject_Z 0). rewrite <- Zlt_Qlt. lia.
Qed.

(** The value of [gini] on a nonempty array whose sum is not zero, and
    the case of a sum that is. *)
Lemma gini_value a :
  a <> [] -> ~ sum a == 0 ->
  exists g, Analyze.gini a = Some g /\
            g == abs_differences a a / (2 * of_nat (length a) * sum a).
Proof.
  intros Hne Hs.
  assert (Hlen : (0 < length a)%nat) by (destruct a; [congruence | simpl; lia]).
  pose proof (of_nat_pos _ Hlen) as Hn.
  unfold Analyze.gini, mean2, mean.
  replace (length a =? 0)%nat with false by (symmetry; apply Nat.eqb_neq; lia).
  rewrite length_outer.
  rewrite (fdiv_some _ (of_nat (length a * length a)))
    by (rewrite of_nat_mul; nra).
  rewrite (fdiv_some (sum a)) by lra.
  simpl mbind.
  rewrite fdiv_some.
  2:{ intros H. apply Hs.
      assert (E : sum a == sum a / of_nat (length a) * of_nat (length a))
        by (field; lra).
      rewrite E, H. ring. }
  simpl. eexists. split; [reflexivity|].
  rewrite outer_flat. fold (abs_differences a a). rewrite of_nat_mul.
  field. split; lra.
Qed.

Lemma gini_nan a : a <> [] -> sum a == 0 -> Analyze.gini a = None.
Proof.
  intros Hne Hs.
  assert (Hlen : (0 < length a)%nat) by (destruct a; [congruence | simpl; lia]).
  pose proof (of_nat_pos _ Hlen) as Hn.
  unfold Analyze.gini, mean2, mean.
  replace (length a =? 0)%nat with false by (symmetry; apply Nat.eqb_neq; lia).
  rewrite length_outer.
  rewrite (fdiv_some _ (of_nat (length a * length a)))
    by (rewrite of_nat_mul; nra).
  rewrite (fdiv_some (sum a)) by lra.
  simpl mbind. rewrite fdiv_none; [reflexivity|].
  rewrite Hs. field. lra.
Qed.


Lemma sum_zero_all_zero l :
  nonneg l -> sum l == 0 -> Forall (fun x => x == 0) l.
Proof.
  induction 1 as [|x l Hx Hl IH]; intros Hs; [constructor|].
  simpl in Hs. pose proof (sum_nonneg l Hl).
  constructor; [lra | apply IH; lra].
Qed.









(** X7.  [gini] of hist/analyze.py is not finite exactly on a nonempty
    array whose sum is zero; of non-negative weights, exactly when there are
    weights and all are zero. *)
Theorem gini_undefined_iff (a : list Q) :
  (Analyze.gini a = None <-> a <> [] /\ sum a == 0) /\
  (nonneg a ->
   (Analyze.gini a = None <-> a <> [] /\ Forall (fun x => x == 0) a)).
Proof.
  assert (H1 : Analyze.gini a = None <-> a <> [] /\ sum a == 0).
  { split.
    - intros Hg. destruct a as [|x0 a0] eqn:Ea; [discriminate|].
      rewrite <- Ea in *. assert (Hne : a <> []) by (rewrite Ea; discriminate).
      split; [exact Hne|].
      destruct (Qeq_dec (sum a) 0) as [Hs|Hs]; [exact Hs|].
      destruct (gini_value a Hne Hs) as (g & Hg' & _). congruence.
    - intros [Hne Hs]. now apply gini_nan. }
  split; [exact H1|].
  intros Ha. rewrite H1. split; intros [Hne Hz]; (split; [exact Hne|]).
  - now apply sum_zero_all_zero.
  - now apply sum_all_zero.
Qed.

End GiniMore.

(** ** The metadata [by_address_ext] keeps per entity *)

Section ExtMetadata.

Import NakamotoAnalysis.

Variable str : list string -> string.

Lemma counted_count_if key cnt c :
  counted (count_if key cnt) c =
  (counted cnt c + if bool_decide (Py.truthy key = Some c) then 1 else 0)%nat.
Proof.
  unfold count_if, counted, Py.count_up, Py.counter in *.
  destruct (Py.truthy key) as [k|].
  - destruct (decide (k = c)) as [->|Hk].
    + rewrite lookup_insert_eq, bool_decide_eq_true_2 by reflexivity. simpl. lia.
    + rewrite lookup_insert_ne by exact Hk.
      rewrite bool_decide_eq_false_2 by congruence. lia.
  - rewrite bool_decide_eq_false_2 by discriminate. lia.
Qed.

Lemma count_of_cons field v vs c :
  count_of field (v :: vs) c =
  ((if bool_decide (Py.truthy (field v) = Some c) then 1 else 0) +
   count_of field vs c)%nat.
Proof.
  unfold count_of. simpl. now destruct (bool_decide _).
Qed.

Lemma fold_update_count (f : entity -> Py.counter)
    (field : validator -> option string) ms g c :
  (forall g v, f (absorb str g v) = count_if (field v) (f g)) ->
  counted (f (fold_left (absorb str) ms g)) c =
  (counted (f g) c + count_of field ms c)%nat.
Proof.
  intros Hf. revert g. induction ms as [|m ms IH]; intros g.
  - unfold count_of. simpl. lia.
  - simpl fold_left. rewrite IH, Hf, counted_count_if, count_of_cons. lia.
Qed.

Lemma fold_update_id_str ms g :
  e_id (fold_left (absorb str) ms g) =
  e_id g ∪ list_to_set (map (fun v => id_str str (v_id v)) ms).
Proof.
  revert g. induction ms as [|m ms IH]; intros g; simpl.
  - set_solver.
  - rewrite IH. simpl. set_solver.
Qed.

(** Every entity returned is the fold of the updates over the validators
    it keeps. *)
Lemma by_address_ext_fold vs e :
  e ∈ Py.values (accumulate address_set new_entity (absorb str) (with_addresses vs) []) ->
  e = fold_left (absorb str) (e_validators e) new_entity.
Proof.
  intros He.
  set (gs := accumulate _ _ _ _ _) in He.
  assert (Hnd : NoDup (Py.keys gs)) by (apply accumulate_NoDup; constructor).
  destruct (values_get gs e Hnd He) as [k Hk].
  pose proof Hk as Hk'.
  apply by_address_ext_entity in Hk' as (Hne & _ & Hv & _).
  unfold gs in Hk. rewrite accumulate_get in Hk. simpl Py.get in Hk.
  rewrite (members_with_addresses vs k Hne) in Hk.
  rewrite Hv. destruct (members vs k) as [|m ms]; [discriminate|].
  simpl in Hk |- *. congruence.
Qed.

(** X8.  What [by_address_ext] keeps besides the total stake.  For
    every entity: the counters of countries, hosting providers, cities and
    versions count the validators it keeps that have that (non-empty) value,
    0 for any other key; its id set holds the ids of those validators; its
    own and delegated weight are the sums over them. *)
Theorem by_address_ext_metadata (validators : list validator) :
  exists entities,
    by_address_ext str validators = Py.Ok entities /\
    forall e, e ∈ entities ->
      (forall c, counted (e_countries e) c =
                 count_of v_geo_country_code (e_validators e) c) /\
      (forall c, counted (e_asns e) c =
                 count_of v_geo_asnum_name (e_validators e) c) /\
      (forall c, counted (e_cities e) c = count_of city_key (e_validators e) c) /\
      (forall c, counted (e_versions e) c =
                 count_of v_version (e_validators e) c) /\
      e_id e = list_to_set (map (fun v => id_str str (v_id v)) (e_validators e)) /\
      e_weight e = sum_Z (map own_weight (e_validators e)) /\
      e_delegatorWeight e = sum_Z (map get_delegator_weight (e_validators e)).
Proof.
  eexists. split; [apply by_address_ext_eq|].
  intros e He. pose proof (by_address_ext_fold _ _ He) as Hfold.
  set (ms := e_validators e) in *. clearbody ms. subst e.
  split; [|split; [|split; [|split; [|split; [|split]]]]].
  - intros c. now rewrite (fold_update_count e_countries v_geo_country_code).
  - intros c. now rewrite (fold_update_count e_asns v_geo_asnum_name).
  - intros c. rewrite (fold_update_count e_cities city_key); [reflexivity|].
    intros g v. simpl. unfold count_if at 1, city_key.
    destruct (Py.truthy (v_geo_city_name v)); reflexivity.
  - intros c. now rewrite (fold_update_count e_versions v_version).
  - rewrite fold_update_id_str. simpl. set_solver.
  - rewrite (fold_update_sum (absorb str) e_weight own_weight) by reflexivity.
    simpl. lia.
  - rewrite (fold_update_sum (absorb str) e_delegatorWeight get_delegator_weight)
      by reflexivity.
    simpl. lia.
Qed.

End ExtMetadata.

(** ** The two basic groupers side by side *)

Section MapValues.
Context {R K E1 E2 : Type} `{EqDecision K}.
Context (key : R -> K) (fresh1 : E1) (upd1 : E1 -> R -> E1).
Context (fresh2 : E2) (upd2 : E2 -> R -> E2) (h : E1 -> E2).

Lemma get_map_values (k : K) (gs : Py.dict K E1) :
  Py.get k (map_values h gs) = option_map h (Py.get k gs).
Proof.
  induction gs as [|[k' v] gs IH]; [reflexivity|].
  simpl. destruct (decide (k = k')); [reflexivity | exact IH].
Qed.

Lemma set_map_values (k : K) v (gs : Py.dict K E1) :
  Py.set k (h v) (map_values h gs) = map_values h (Py.set k v gs).
Proof.
  induction gs as [|[k' v'] gs IH]; [reflexivity|].
  simpl. destruct (decide (k = k')); [reflexivity|].
  simpl. now rewrite IH.
Qed.

Lemma values_map_values (gs : Py.dict K E1) : Py.values (map_values h gs) = map h (Py.values gs).
Proof. unfold Py.values, map_values. now rewrite !map_map. Qed.

Lemma accumulate_map_values rs (gs : Py.dict K E1) :
  h fresh1 = fresh2 ->
  Forall (fun r => forall g, h (upd1 g r) = upd2 (h g) r) rs ->
  map_values h (accumulate key fresh1 upd1 rs gs) =
  accumulate key fresh2 upd2 rs (map_values h gs).
Proof.
  intros Hfresh Hupd. revert gs.
  induction Hupd as [|r rs Hr Hrs IH]; intros gs; [reflexivity|].
  unfold accumulate in *. simpl fold_left. rewrite IH. f_equal.
  unfold accumulate_step. rewrite <- set_map_values, get_map_values, Hr.
  destruct (Py.get (key r) gs); simpl; congruence.
Qed.

End MapValues.

Section GroupersAgree.

Lemma id_list_same vid : Stakes.id_list vid = Analyze.id_list vid.
Proof. destruct vid; reflexivity. Qed.

Lemma stakes_step_eq v gs :
  has_basic_fields v -> is_Some (v_delegatedWeight v) ->
  Stakes.by_address_step v gs =
  (Py.Ok tt,
   accumulate_step address_set Stakes.new_entity stakes_update gs v).
Proof.
  intros ([vid Hid] & [addrs Ha] & [w Hw] & [tw Ht]) [d Hd].
  unfold Stakes.by_address_step, accumulate_step, stakes_update,
    address_set, addresses, ids, own_weight, total_weight.
  rewrite Ha, Hid, Hw, Hd, Ht. simpl default. rewrite (id_list_same vid).
  f_equal. unfold Stakes.mutate.
  destruct (Py.contains (frozenset addrs) gs); [|reflexivity].
  now rewrite !set_set.
Qed.

Lemma stakes_loop_eq vs gs :
  Forall (fun v => has_basic_fields v /\ is_Some (v_delegatedWeight v)) vs ->
  Stakes.by_address_loop vs gs =
  (Py.Ok tt, accumulate address_set Stakes.new_entity stakes_update vs gs).
Proof.
  intros H. revert gs. induction H as [|v vs [Hv Hd] Hvs IH]; intros gs;
    [reflexivity|].
  simpl Stakes.by_address_loop. rewrite (stakes_step_eq v gs Hv Hd).
  apply IH.
Qed.

(** X9.  On records of the older snapshots, and with nothing in its
    dict, [by_address] of stakes.py returns the entities [by_address] of
    hist/analyze.py returns, in the same order, the delegated stake under
    [delegatedWeight] instead of [delegatorWeight]. *)
Theorem basic_groupers_agree (validators : list validator) :
  Forall old_format validators ->
  exists entities,
    fst (Stakes.by_address validators []) = Py.Ok entities /\
    Analyze.by_address validators = Py.Ok (map renamed entities).
Proof.
  intros Hold.
  assert (Hfs : Forall has_basic_fields validators)
    by (eapply Forall_impl; [exact Hold | now intros v (H & _)]).
  unfold Stakes.by_address. rewrite stakes_loop_eq
    by (eapply Forall_impl; [exact Hold | now intros v (H1 & H2 & _)]).
  eexists. split; [reflexivity|].
  apply by_address_ok. split; [exact Hfs|].
  rewrite <- (values_map_values renamed).
  rewrite (accumulate_map_values address_set Stakes.new_entity stakes_update
             Analyze.new_entity analyze_update renamed); [reflexivity.. |].
  eapply Forall_impl; [exact Hold|].
  intros v (_ & _ & Hnew) g. unfold renamed, analyze_update, stakes_update.
  simpl. unfold get_delegator_weight. now rewrite Hnew.
Qed.

End GroupersAgree.

(** ** stakes.py: the reference distributions *)

Section ReferenceFacts.

Import Numpy Stakes StakesReference.












Variable bit_generator : Type.
Variable seeded : Z -> Py.result bit_generator.
Variable uniform : bit_generator -> nat -> list Q.


(** *** The equal distribution *)







Lemma of_nat_le n m : (n <= m)%nat -> of_nat n <= of_nat m.
Proof. intros H. unfold of_nat. rewrite <- Zle_Qle. lia. Qed.




End ReferenceFacts.

(** ** [track_entity_persistence] of hist/nakamoto_analysis.py *)

Section PersistenceFacts.

Import Numpy NakamotoSet.

Lemma insert_entry_perm x l : Permutation (insert_entry x l) (x :: l).
Proof.
  induction l as [|y l IH]; simpl; [reflexivity|].
  destruct (Qle_bool _ _); [reflexivity|].
  rewrite IH. apply perm_swap.
Qed.

Lemma sorted_by_pct_perm l : Permutation (sorted_by_pct l) l.
Proof.
  induction l as [|x l IH]; simpl; [reflexivity|].
  rewrite insert_entry_perm. now constructor.
Qed.

Lemma insert_entry_sorted x l :
  StronglySorted by_pct l -> StronglySorted by_pct (insert_entry x l).
Proof.
  induction 1 as [|y l Hs IH Hy]; simpl.
  - repeat constructor.
  - destruct (Qle_bool (- pct x) (- pct y)) eqn:E.
    + apply Qle_bool_iff in E.
      constructor; [now constructor|]. constructor; [unfold by_pct; lra|].
      eapply Forall_impl; [exact Hy|]. unfold by_pct. simpl. intros; lra.
    + assert (Hlt : - pct y < - pct x).
      { apply Qnot_le_lt. intros H. apply Qle_bool_iff in H. congruence. }
      constructor; [exact IH|].
      eapply Permutation_Forall; [symmetry; apply insert_entry_perm|].
      constructor; [unfold by_pct; lra | exact Hy].
Qed.

Lemma sorted_by_pct_sorted l : StronglySorted by_pct (sorted_by_pct l).
Proof.
  induction l as [|x l IH]; simpl; [constructor|].
  now apply insert_entry_sorted.
Qed.

Lemma truediv_some x y :
  y <> 0%nat ->
  truediv (Z.of_nat x) (Z.of_nat y) = Returned (of_nat x / of_nat y).
Proof.
  intros Hy. unfold truediv.
  now replace (Z.of_nat y =? 0)%Z with false by (symmetry; apply Z.eqb_neq; lia).
Qed.

(** The loop over the addresses sorts their entries into the three lists
    by the two bounds, in the order of the addresses. *)
Lemma categorize_spec total items : total <> 0%nat -> forall P O T,
  categorize items total P O T =
  Returned (P ++ List.filter is_persistent (map (entry_of total) items),
        O ++ List.filter is_occasional (map (entry_of total) items),
        T ++ List.filter is_transient (map (entry_of total) items)).
Proof.
  intros Ht. induction items as [|[addr dates] items IH]; intros P O T.
  - simpl. now rewrite !app_nil_r.
  - simpl categorize. rewrite (truediv_some _ _ Ht). cbv zeta.
    simpl map. simpl List.filter.
    unfold is_persistent at 1, is_occasional at 1, is_transient at 1.
    change (pct (entry_of total (addr, dates)))
      with (of_nat (length dates) / of_nat total * 100).
    destruct (Qlt_bool 50 _); simpl andb; [|destruct (Qlt_bool 25 _); simpl andb];
      rewrite IH, <- ?app_assoc; reflexivity.
Qed.

Lemma categorize_nil total P O T : categorize [] total P O T = Returned (P, O, T).
Proof. reflexivity. Qed.

Lemma three_way_count (es : list entry) :
  length es =
  (length (List.filter is_persistent es) + length (List.filter is_occasional es) +
   length (List.filter is_transient es))%nat.
Proof.
  induction es as [|e es IH]; [reflexivity|].
  simpl. unfold is_persistent at 1, is_occasional at 1, is_transient at 1.
  destruct (Qlt_bool 50 (pct e)), (Qlt_bool 25 (pct e)); simpl; lia.
Qed.

Lemma three_way_perm (es : list entry) :
  Permutation
    (List.filter is_persistent es ++ List.filter is_occasional es ++
     List.filter is_transient es) es.
Proof.
  induction es as [|e es IH]; [reflexivity|].
  simpl. unfold is_persistent at 1, is_occasional at 1, is_transient at 1.
  destruct (Qlt_bool 50 (pct e)), (Qlt_bool 25 (pct e)); simpl.
  - now constructor.
  - now constructor.
  - rewrite <- Permutation_middle. now constructor.
  - rewrite app_assoc, <- Permutation_middle, <- app_assoc. now constructor.
Qed.

(** *** The dict of appearances *)

Lemma Forall_set {V} (P : V -> Prop) (d : Py.dict string V) k v :
  P v -> Forall (fun kv => P (snd kv)) d ->
  Forall (fun kv => P (snd kv)) (Py.set k v d).
Proof.
  intros Hv. induction 1 as [|[k' v'] d Hk Hd IH]; simpl.
  - repeat constructor. exact Hv.
  - destruct (decide (k = k')); constructor; simpl; assumption.
Qed.

Lemma appear_seen apps addr d :
  seen apps ->
  seen (appear apps addr d) /\
  dates_seen (appear apps addr d) = (dates_seen apps + 1)%Z.
Proof.
  intros [Hnd Hne]. unfold appear. split; [split|].
  - now apply NoDup_keys_set.
  - apply (Forall_set (fun l => l <> [])); [|exact Hne].
    intros E. now apply app_eq_nil in E as [_ E].
  - unfold dates_seen. rewrite sum_values_set, length_app. simpl length.
    destruct (Py.get addr apps); simpl; lia.
Qed.

Lemma appearances_in_seen r apps :
  seen apps ->
  seen (appearances_in apps r) /\
  dates_seen (appearances_in apps r) =
  (dates_seen apps + Z.of_nat (length (top_entities r)))%Z.
Proof.
  unfold appearances_in. generalize (top_entities r) as es.
  intros es. revert apps. induction es as [|e es IH]; intros apps Hs.
  - simpl. split; [exact Hs | lia].
  - simpl fold_left.
    destruct (appear_seen apps (full_address e) (date r) Hs) as [Hs' Hd'].
    destruct (IH _ Hs') as [Hs'' Hd'']. split; [exact Hs''|].
    rewrite Hd'', Hd'. simpl length. lia.
Qed.

Lemma entity_appearances_seen results apps :
  seen apps ->
  seen (fold_left appearances_in results apps) /\
  dates_seen (fold_left appearances_in results apps) =
  (dates_seen apps + Z.of_nat (top_entity_count results))%Z.
Proof.
  unfold top_entity_count. revert apps.
  induction results as [|r results IH]; intros apps Hs.
  - simpl. split; [exact Hs | lia].
  - simpl fold_left.
    destruct (appearances_in_seen r apps Hs) as [Hs' Hd'].
    destruct (IH _ Hs') as [Hs'' Hd'']. split; [exact Hs''|].
    rewrite Hd'', Hd'. simpl map. simpl concat. rewrite length_app. lia.
Qed.

Lemma sum_nat_app a b : sum_nat (a ++ b) = (sum_nat a + sum_nat b)%nat.
Proof. induction a as [|x a IH]; simpl; lia. Qed.

Lemma sum_nat_perm a b : Permutation a b -> sum_nat a = sum_nat b.
Proof. induction 1; simpl; lia. Qed.

Lemma sum_nat_Z l : Z.of_nat (sum_nat l) = sum_Z (map Z.of_nat l).
Proof. induction l as [|x l IH]; simpl; lia. Qed.

Lemma categorize_appearances results :
  let es := map (entry_of (length results)) (entity_appearances results) in
  categorize (entity_appearances results) (length results) [] [] [] =
  Returned (List.filter is_persistent es, List.filter is_occasional es,
            List.filter is_transient es).
Proof.
  destruct results as [|r rs]; [reflexivity|].
  cbv zeta. now rewrite categorize_spec by (simpl; lia).
Qed.

(** X12.  [track_entity_persistence] never divides by zero.  Its three
    lists hold one entry per address seen: together they are, up to order,
    the entries of the addresses of the dict of appearances, which holds
    every address once.  An entry is in [persistent] when its address is in
    more than 50% of the quarterly results, in [occasional] when in more than
    25% and at most 50%, in [transient] otherwise; every list is in
    descending order of the percentage; and the appearances of all entries
    add up to the number of top entities of all results. *)
Theorem track_entity_persistence_partitions (results : list report) :
  exists p,
    track_entity_persistence results = Returned p /\
    total_unique p =
      (length (persistent p) + length (occasional p) + length (transient p))%nat /\
    Forall (fun e => 50 < pct e) (persistent p) /\
    Forall (fun e => 25 < pct e /\ pct e <= 50) (occasional p) /\
    Forall (fun e => 0 < pct e /\ pct e <= 25) (transient p) /\
    StronglySorted by_pct (persistent p) /\
    StronglySorted by_pct (occasional p) /\
    StronglySorted by_pct (transient p) /\
    Forall (fun e => (1 <= appearances e)%nat /\
                     pct e == of_nat (appearances e) / of_nat (length results) * 100)
      (persistent p ++ occasional p ++ transient p) /\
    sum_nat (map appearances (persistent p ++ occasional p ++ transient p)) =
      top_entity_count results /\
    NoDup (Py.keys (entity_appearances results)) /\
    Permutation (persistent p ++ occasional p ++ transient p)
      (map (entry_of (length results)) (entity_appearances results)).
Proof.
  unfold track_entity_persistence.
  set (apps := entity_appearances results).
  set (total := length results).
  set (es := map (entry_of total) apps).
  assert (Hseen : seen apps /\ dates_seen apps = Z.of_nat (top_entity_count results)).
  { destruct (entity_appearances_seen results []) as [H1 H2].
    - split; constructor.
    - split; [exact H1 | exact H2]. }
  destruct Hseen as [[Hnd Hne] Hdates].
  assert (Hcat : categorize apps total [] [] [] =
    Returned (List.filter is_persistent es, List.filter is_occasional es,
              List.filter is_transient es)).
  { apply categorize_appearances. }
  rewrite Hcat. eexists. split; [reflexivity|]. simpl.
  assert (Hes : Forall (fun e => (1 <= appearances e)%nat /\
                   pct e == of_nat (appearances e) / of_nat total * 100) es).
  { unfold es. rewrite Forall_map. eapply Forall_impl; [exact Hne|].
    intros [addr dates] Hd. simpl in *. split; [|reflexivity].
    destruct dates; [congruence | simpl; lia]. }
  assert (Htotal : es <> [] -> 0 < of_nat total).
  { intros He. apply of_nat_pos. unfold total. destruct results; [|simpl; lia].
    exfalso. apply He. reflexivity. }
  assert (Hpos : Forall (fun e => 0 < pct e) es).
  { rewrite Forall_forall in Hes |- *. intros e He.
    destruct (Hes e He) as [H1 H2].
    assert (Hne' : es <> []) by (intros E; rewrite E in He; inversion He).
    specialize (Htotal Hne').
    assert (Ha : 1 <= of_nat (appearances e)).
    { change 1 with (of_nat 1). now apply of_nat_le. }
    rewrite H2. apply Qmult_lt_0_compat; [|lra].
    apply Qlt_shift_div_l; [exact Htotal | lra]. }
  assert (Hperm : Permutation
    (sorted_by_pct (List.filter is_persistent es) ++
     sorted_by_pct (List.filter is_occasional es) ++
     sorted_by_pct (List.filter is_transient es)) es).
  { rewrite !sorted_by_pct_perm. apply three_way_perm. }
  split; [|split; [|split; [|split; [|split; [|split; [|split; [|split;
    [|split; [|split]]]]]]]]].
  - rewrite (Permutation_length (sorted_by_pct_perm (List.filter is_persistent es))),
      (Permutation_length (sorted_by_pct_perm (List.filter is_occasional es))),
      (Permutation_length (sorted_by_pct_perm (List.filter is_transient es))),
      <- (three_way_count es).
    unfold es. now rewrite length_map.
  - eapply Permutation_Forall; [symmetry; apply sorted_by_pct_perm|].
    apply Forall_forall. intros e He.
    apply list_elem_of_In, filter_In in He as [_ He].
    now apply Qlt_bool_iff in He.
  - eapply Permutation_Forall; [symmetry; apply sorted_by_pct_perm|].
    apply Forall_forall. intros e He.
    apply list_elem_of_In, filter_In in He as [_ He].
    unfold is_occasional in He. apply andb_true_iff in He as [H1 H2].
    apply negb_true_iff, Qlt_bool_false in H1. apply Qlt_bool_iff in H2.
    split; assumption.
  - eapply Permutation_Forall; [symmetry; apply sorted_by_pct_perm|].
    apply Forall_forall. intros e He.
    apply list_elem_of_In, filter_In in He as [Hin He].
    unfold is_transient in He. apply andb_true_iff in He as [H1 H2].
    apply negb_true_iff, Qlt_bool_false in H2.
    rewrite Forall_forall in Hpos. split; [|exact H2].
    apply Hpos, list_elem_of_In, Hin.
  - apply sorted_by_pct_sorted.
  - apply sorted_by_pct_sorted.
  - apply sorted_by_pct_sorted.
  - eapply Permutation_Forall; [symmetry; exact Hperm | exact Hes].
  - rewrite (sum_nat_perm _ _ (Permutation_map appearances Hperm)).
    apply Nat2Z.inj. rewrite sum_nat_Z, <- Hdates. unfold dates_seen, es.
    unfold Py.values. rewrite !map_map. reflexivity.
  - exact Hnd.
  - exact Hperm.
Qed.

End PersistenceFacts.

(** ** hist/analyze.py: the dates of the listing *)

Section ListingFacts.

Import NakamotoAnalysis AnalyzeSeries.







End ListingFacts.

(** ** The date pattern and [strptime] *)

Section PatternFacts.

Import Datetime NakamotoAnalysis AnalyzeSeries.



Lemma dash_digit {A} c x rest (k : list ascii -> option A) :
  digit c = Some x -> dash (c :: rest) k = None.
Proof.
  intros Hc. unfold dash.
  destruct c as [[] [] [] [] [] [] [] []]; try reflexivity. discriminate.
Qed.












End PatternFacts.
(** ** The snapshot file of a date *)

Section PathFacts.

Import Datetime NakamotoAnalysis AnalyzeSeries.


Lemma string_of_chars_inj a b :
  list_ascii_of_string a = list_ascii_of_string b -> a = b.
Proof.
  intros H. rewrite <- (string_of_list_ascii_of_string a),
    <- (string_of_list_ascii_of_string b). now rewrite H.
Qed.


End PathFacts.

(** ** hist/analyze.py: [analyze_date] *)

Section AnalyzeDateFacts.

Import Numpy Analyze AnalyzeSeries.

Variable json_file : string -> option (list validator).








End AnalyzeDateFacts.

Section AnalyzeMetrics.

Import Numpy Analyze AnalyzeSeries.









Variable json_file : string -> option (list validator).


End AnalyzeMetrics.

(** ** The order of the validators in a snapshot *)

Section OrderFacts.

Import Numpy Analyze AnalyzeSeries.






Variables json_file json_file' : string -> option (list validator).


End OrderFacts.

(** ** hist/analyze.py: from the listing to the quarterly results *)

Section SeriesFacts.

Import Analyze NakamotoAnalysis AnalyzeSeries.







Variable json_file : string -> option (list validator).





End SeriesFacts.

(** ** The order of the entities *)

Section EntityOrder.

Context {R K E : Type} `{EqDecision K}.
Context (key : R -> K) (fresh : E) (upd : E -> R -> E).

Lemma filter_ext_in {A} (f g : A -> bool) l :
  (forall x, x ∈ l -> f x = g x) -> List.filter f l = List.filter g l.
Proof.
  induction l as [|x l IH]; intros H; [reflexivity|].
  simpl. rewrite (H x) by left. rewrite IH; [reflexivity|].
  intros y Hy. apply H. now right.
Qed.

Lemma filter_filter_and {A} (f g : A -> bool) l :
  List.filter f (List.filter g l) = List.filter (fun x => g x && f x) l.
Proof.
  induction l as [|x l IH]; [reflexivity|].
  simpl. destruct (g x); simpl; [destruct (f x)|]; now rewrite IH.
Qed.

Lemma accumulate_keys rs : forall gs,
  Py.keys (accumulate key fresh upd rs gs) =
  Py.keys gs ++ List.filter (unseen (Py.keys gs)) (first_occurrences (map key rs)).
Proof.
  induction rs as [|r rs IH]; intros gs.
  - simpl. now rewrite app_nil_r.
  - unfold accumulate in *. simpl fold_left. rewrite IH.
    unfold accumulate_step. rewrite keys_set. simpl map.
    simpl first_occurrences. simpl List.filter.
    destruct (Py.contains (key r) gs) eqn:Hc.
    + assert (Hin : key r ∈ Py.keys gs).
      { apply contains_get in Hc as [v Hv].
        destruct (decide (key r ∈ Py.keys gs)) as [H1|H1]; [exact H1|].
        apply get_None_keys in H1. congruence. }
      unfold unseen at 2. rewrite bool_decide_eq_true_2 by exact Hin.
      simpl negb. cbv iota. f_equal. rewrite filter_filter_and.
      apply filter_ext_in. intros k _. unfold unseen.
      destruct (bool_decide_reflect (k ∈ Py.keys gs)) as [Hk|Hk]; simpl;
        [now rewrite andb_false_r|].
      rewrite andb_true_r. symmetry. apply negb_true_iff, bool_decide_eq_false_2.
      intros ->. contradiction.
    + assert (Hnin : key r ∉ Py.keys gs).
      { apply get_None_keys. unfold Py.contains in Hc.
        destruct (Py.get (key r) gs); [discriminate | reflexivity]. }
      unfold unseen at 2. rewrite bool_decide_eq_false_2 by exact Hnin.
      simpl negb. cbv iota. rewrite <- app_assoc. simpl app. f_equal. f_equal.
      rewrite filter_filter_and. apply filter_ext_in. intros k _. unfold unseen.
      destruct (bool_decide_reflect (k = key r)) as [->|Hk]; simpl.
      * apply negb_false_iff, bool_decide_eq_true_2. set_solver.
      * f_equal. apply bool_decide_ext. set_solver.
Qed.

Lemma filter_unseen_nil (l : list K) : List.filter (unseen []) l = l.
Proof.
  induction l as [|k l IH]; [reflexivity|]. simpl in *. now rewrite IH.
Qed.

Lemma accumulate_keys_empty rs :
  Py.keys (accumulate key fresh upd rs []) = first_occurrences (map key rs).
Proof.
  rewrite accumulate_keys. exact (filter_unseen_nil _).
Qed.

End EntityOrder.

Section EntityOrderClaims.

Variable str : list string -> string.

Lemma by_address_ext_keys vs :
  let gs := accumulate address_set NakamotoAnalysis.new_entity
              (NakamotoAnalysis.absorb str) (with_addresses vs) [] in
  map NakamotoAnalysis.e_rewardAddresses (Py.values gs) = Py.keys gs.
Proof.
  intros gs.
  assert (Hnd : NoDup (Py.keys gs)) by (apply accumulate_NoDup; constructor).
  assert (Hall : forall k e, (k, e) ∈ gs -> NakamotoAnalysis.e_rewardAddresses e = k).
  { intros k e Hin. apply (in_get _ _ _ Hnd) in Hin.
    now apply by_address_ext_entity in Hin as (_ & H & _). }
  clearbody gs. clear Hnd. unfold Py.values, Py.keys.
  induction gs as [|[k e] gs IH]; [reflexivity|].
  simpl. rewrite (Hall k e) by left. f_equal. apply IH.
  intros k' e' Hin. apply Hall. now right.
Qed.

(** X20.  The groupers return the entities in the order in which their
    reward-address sets first occur in the input: [by_address] over all
    validators, [by_address_ext] over those with a reward address. *)
Theorem entities_in_order_of_first_occurrence (validators : list validator) :
  (forall entities,
     Analyze.by_address validators = Py.Ok entities ->
     map Analyze.e_rewardAddresses entities =
     first_occurrences (map address_set validators)) /\
  (exists entities,
     NakamotoAnalysis.by_address_ext str validators = Py.Ok entities /\
     map NakamotoAnalysis.e_rewardAddresses entities =
     first_occurrences (map address_set (with_addresses validators))).
Proof.
  split.
  - intros entities Hok. apply by_address_ok in Hok as [_ ->].
    rewrite by_address_keys. apply accumulate_keys_empty.
  - eexists. split; [apply by_address_ext_eq|].
    rewrite by_address_ext_keys. apply accumulate_keys_empty.
Qed.

End EntityOrderClaims.

(** ** [analyze_nakamoto_set] of hist/nakamoto_analysis.py *)

Section ReportFacts.

Import Numpy NakamotoAnalysis NakamotoSet.

Variable str : list string -> string.
Variable json_file : string -> option (list validator).
Variable set_order : gset string -> list string.
Variable items_order : Py.counter -> list (string * nat).

Lemma truediv_nonzero x y :
  y <> 0%Z -> truediv x y = Returned (inject_Z x / inject_Z y).
Proof.
  intros Hy. unfold truediv.
  now replace (y =? 0)%Z with false by (symmetry; apply Z.eqb_neq; exact Hy).
Qed.

Lemma truediv_zero x : truediv x 0 = Raised ZeroDivisionError.
Proof. reflexivity. Qed.

Lemma top_addresses_zero set : forall tops f,
  top_addresses_loop set_order set 0 tops = Raised f -> f = ZeroDivisionError.
Proof.
  induction set as [|e set IH]; intros tops f; simpl; [discriminate|].
  destruct (set_order (e_rewardAddresses e)) as [|addr rest]; [apply IH|].
  now intros [= <-].
Qed.

(** With a total stake that is not zero the loop fails for no entity,
    and adds an entry for each entity that has a first address. *)
Lemma top_addresses_nonzero total set :
  total <> 0%Z ->
  Forall (fun e => set_order (e_rewardAddresses e) <> []) set ->
  forall tops, exists new,
    top_addresses_loop set_order set total tops = Returned (tops ++ new) /\
    Forall2 (fun e t => exists addr rest,
               set_order (e_rewardAddresses e) = addr :: rest /\
               top_entry_of total e addr t) set new.
Proof.
  intros Ht Hset. induction Hset as [|e set He Hset IH]; intros tops.
  - exists []. simpl. rewrite app_nil_r. split; [reflexivity | constructor].
  - simpl top_addresses_loop.
    destruct (set_order (e_rewardAddresses e)) as [|addr rest] eqn:Eo;
      [congruence|].
    rewrite (truediv_nonzero _ _ Ht). cbv zeta.
    destruct (IH (tops ++ [ {| address :=
                     if (20 <? String.length addr)%nat then short_address addr
                     else addr;
                   full_address := addr;
                   stake_pct := inject_Z (e_totalWeight e) / inject_Z total * 100;
                   num_validators := length (e_validators e);
                   countries := e_countries e; asns := e_asns e |} ]))
      as (new & Hloop & Hnew).
    eexists (_ :: new). split.
    + rewrite Hloop, <- app_assoc. reflexivity.
    + constructor; [|exact Hnew].
      exists addr, rest. rewrite Eo. split; [reflexivity|].
      repeat split; reflexivity.
Qed.

Lemma fold_left_add_nat l a :
  fold_left Nat.add l a = (a + sum_nat l)%nat.
Proof.
  revert a. induction l as [|x l IH]; intros a; simpl; [lia|].
  rewrite IH. lia.
Qed.

Lemma sum_nat_lengths {A} (ls : list (list A)) :
  sum_nat (map (@length A) ls) = length (concat ls).
Proof.
  induction ls as [|l ls IH]; simpl; [reflexivity|].
  rewrite length_app. lia.
Qed.

(** The entities of the extended grouper have a reward address. *)
Lemma ext_entities_addresses vs e :
  e ∈ Py.values (accumulate address_set new_entity (absorb str)
                   (with_addresses vs) []) ->
  e_rewardAddresses e <> ∅.
Proof.
  intros He.
  set (gs := accumulate _ _ _ _ _) in He.
  assert (Hnd : NoDup (Py.keys gs)) by (apply accumulate_NoDup; constructor).
  destruct (values_get gs e Hnd He) as [k Hk].
  apply by_address_ext_entity in Hk as (Hne & -> & _). exact Hne.
Qed.

(** Validators whose entities hold no stake in total. *)
Lemma analyze_nakamoto_set_zero date_str entities :
  load_validators_ext json_file date_str <> [] ->
  by_address_ext str (load_validators_ext json_file date_str) =
    Py.Ok entities ->
  stake_of entities = 0%Z ->
  analyze_nakamoto_set str json_file set_order items_order date_str =
  Raised ZeroDivisionError.
Proof.
  intros Hne Hes Hz. unfold analyze_nakamoto_set.
  destruct (load_validators_ext json_file date_str) as [|v0 vs0] eqn:Ev;
    [congruence|].
  rewrite Hes. cbv zeta. rewrite !total_stake_sum, Hz.
  destruct (top_addresses_loop _ _ 0 []) as [tops|f] eqn:Et; [reflexivity|].
  now rewrite (top_addresses_zero _ _ _ Et).
Qed.

(** Validators whose entities hold stake: the report. *)
Lemma analyze_nakamoto_set_some date_str entities :
  (forall s a, a ∈ set_order s <-> a ∈ s) ->
  load_validators_ext json_file date_str <> [] ->
  by_address_ext str (load_validators_ext json_file date_str) =
    Py.Ok entities ->
  stake_of entities <> 0%Z ->
  let set := get_nakamoto_set entities (30 # 100) in
  exists r,
    analyze_nakamoto_set str json_file set_order items_order date_str =
      Returned (Some r) /\
    date r = date_str /\
    total_validators r = length (load_validators_ext json_file date_str) /\
    total_entities r = length entities /\
    total_stake_of r = stake_of entities /\
    n30_count r = length set /\
    n30_stake r = stake_of set /\
    n30_stake_pct r ==
      inject_Z (stake_of set) / inject_Z (stake_of entities) * 100 /\
    n30_validators r = length (concat (map e_validators set)) /\
    Forall2 (fun e t => exists addr rest,
               set_order (e_rewardAddresses e) = addr :: rest /\
               top_entry_of (stake_of entities) e addr t)
      set (top_entities r).
Proof.
  intros Horder Hne Hes Hnz. cbv zeta. unfold analyze_nakamoto_set.
  set (validators := load_validators_ext json_file date_str) in *.
  destruct validators as [|v0 vs0] eqn:Ev; [congruence|].
  rewrite <- Ev in *. rewrite Hes. cbv zeta.
  rewrite by_address_ext_eq in Hes. injection Hes as Hes.
  rewrite !total_stake_sum.
  set (set := get_nakamoto_set entities (30 # 100)).
  assert (Hsub : forall e, e ∈ set -> e ∈ entities).
  { intros e He.
    destruct (get_nakamoto_set_prefix entities (30 # 100)) as (k & Hk & _).
    fold set in Hk. rewrite Hk in He.
    apply elem_of_take in He as (i & He & _).
    apply list_elem_of_lookup_2 in He.
    now rewrite (sorted_by_stake_perm entities) in He. }
  assert (Hset : Forall (fun e => set_order (e_rewardAddresses e) <> []) set).
  { apply Forall_forall. intros e He.
    apply Hsub in He. rewrite <- Hes in He.
    pose proof (ext_entities_addresses _ _ He) as Hk.
    intros E.
    apply Hk, set_eq. intros a. rewrite <- Horder, E. set_solver. }
  destruct (top_addresses_nonzero _ set Hnz Hset []) as (tops & -> & Htops).
  rewrite (truediv_nonzero _ _ Hnz). simpl app.
  eexists. split; [reflexivity|]. simpl.
  repeat (split; [reflexivity|]).
  split; [|exact Htops].
  rewrite fold_left_add_nat, <- sum_nat_lengths, map_map. reflexivity.
Qed.








End ReportFacts.

(** ** [analyze_all_quarterly] of hist/nakamoto_analysis.py *)

Section ReportSeriesFacts.

Import Numpy NakamotoAnalysis NakamotoSet.

Variable str : list string -> string.
Variable json_file : string -> option (list validator).
Variable set_order : gset string -> list string.
Variable items_order : Py.counter -> list (string * nat).

Hypothesis set_order_lists : forall s a, a ∈ set_order s <-> a ∈ s.

(** [analyze_nakamoto_set] at one date, by the two tests. *)
Lemma analyze_nakamoto_set_at d :
  (has_ext_data json_file d = false ->
   analyze_nakamoto_set str json_file set_order items_order d =
   Returned None) /\
  (stakeless str json_file d = true ->
   analyze_nakamoto_set str json_file set_order items_order d =
   Raised ZeroDivisionError) /\
  (has_ext_data json_file d = true -> stakeless str json_file d = false ->
   exists r,
     analyze_nakamoto_set str json_file set_order items_order d =
     Returned (Some r) /\ date r = d).
Proof.
  unfold stakeless, stake_at, has_ext_data.
  pose proof (by_address_ext_eq str (load_validators_ext json_file d)) as Hes.
  remember (Py.values _) as es eqn:Ees in Hes. clear Ees.
  pose proof (analyze_nakamoto_set_zero str json_file set_order items_order
                d es) as Hzero.
  pose proof (analyze_nakamoto_set_some str json_file set_order items_order
                d es set_order_lists) as Hsome.
  destruct (load_validators_ext json_file d) as [|v vs] eqn:Ev.
  - split; [|split; discriminate].
    intros _. unfold analyze_nakamoto_set. now rewrite Ev.
  - rewrite Hes. split; [discriminate|]. simpl andb. split.
    + intros H. apply Z.eqb_eq in H. now apply Hzero.
    + intros _ H. apply Z.eqb_neq in H.
      destruct (Hsome ltac:(discriminate) Hes H) as (r & Hr & Hd & _).
      now exists r.
Qed.

(** The loop over dates none of which is stakeless. *)
Lemma report_loop_returns ds :
  Forall (fun d => stakeless str json_file d = false) ds ->
  forall results out, exists new,
    analyze_loop str json_file set_order items_order ds results out =
      (Returned (results ++ new), out ++ map announced ds) /\
    Forall2 (fun d r =>
               analyze_nakamoto_set str json_file set_order items_order d =
               Returned (Some r))
      (List.filter (has_ext_data json_file) ds) new /\
    map date new = List.filter (has_ext_data json_file) ds.
Proof.
  induction 1 as [|d ds Hd Hds IH]; intros results out.
  - exists []. simpl. rewrite !app_nil_r. repeat split. constructor.
  - simpl analyze_loop.
    destruct (analyze_nakamoto_set_at d) as (Hnone & _ & Hsome).
    simpl List.filter.
    destruct (has_ext_data json_file d) eqn:Edata.
    + destruct (Hsome eq_refl Hd) as (r & Hr & Hdate). rewrite Hr.
      destruct (IH (results ++ [r]) (out ++ [("Analyzing " ++ d ++ "...")%string]))
        as (new & -> & Hnew & Hdates).
      exists (r :: new). rewrite <- !app_assoc.
      split; [reflexivity|]. split; [now constructor|].
      simpl. now rewrite Hdate, Hdates.
    + rewrite (Hnone eq_refl).
      destruct (IH results (out ++ [("Analyzing " ++ d ++ "...")%string]))
        as (new & -> & Hnew & Hdates).
      exists new. rewrite <- !app_assoc. now repeat split.
Qed.

(** The loop stops at the first stakeless date. *)
Lemma report_loop_raises before d after :
  Forall (fun d => stakeless str json_file d = false) before ->
  stakeless str json_file d = true ->
  forall results out,
    analyze_loop str json_file set_order items_order
      (before ++ d :: after) results out =
    (Raised ZeroDivisionError, out ++ map announced (before ++ [d])).
Proof.
  intros Hb Hd. induction Hb as [|b before Hb Hbefore IH]; intros results out.
  - simpl. destruct (analyze_nakamoto_set_at d) as (_ & Hraise & _).
    now rewrite (Hraise Hd).
  - simpl app. simpl analyze_loop.
    destruct (analyze_nakamoto_set_at b) as (Hnone & _ & Hsome).
    destruct (has_ext_data json_file b) eqn:Edata.
    + destruct (Hsome eq_refl Hb) as (r & -> & _).
      rewrite IH, <- app_assoc. reflexivity.
    + rewrite (Hnone eq_refl), IH, <- app_assoc. reflexivity.
Qed.

(** X23.  [analyze_all_quarterly] of hist/nakamoto_analysis.py, over the
    quarterly dates it selects.  When no selected snapshot is stakeless
    (validators, but no stake in total among their entities), it prints one
    line per date and returns one report per date whose snapshot holds
    validators, in the order of the dates.  At the first stakeless snapshot
    it raises [ZeroDivisionError], having printed the lines up to that
    date: the reports of the earlier dates are lost. *)
Theorem report_series_outcomes (listdir : list string)
    (has_ext : string -> bool) (quarterly : list string) :
  NakamotoAnalysis.get_quarterly_dates listdir has_ext = Py.Ok quarterly ->
  (Forall (fun d => stakeless str json_file d = false) quarterly ->
   exists results,
     analyze_all_quarterly str json_file set_order items_order listdir has_ext
       = (Returned results, map announced quarterly) /\
     Forall2 (fun d r =>
                analyze_nakamoto_set str json_file set_order items_order d =
                Returned (Some r))
       (List.filter (has_ext_data json_file) quarterly) results /\
     map date results = List.filter (has_ext_data json_file) quarterly) /\
  (forall before d after,
     quarterly = before ++ d :: after ->
     Forall (fun d => stakeless str json_file d = false) before ->
     stakeless str json_file d = true ->
     analyze_all_quarterly str json_file set_order items_order listdir has_ext
       = (Raised ZeroDivisionError, map announced (before ++ [d]))).
Proof.
  intros Hq. unfold analyze_all_quarterly. rewrite Hq. split.
  - intros Hok.
    destruct (report_loop_returns quarterly Hok [] []) as (new & -> & H).
    now exists new.
  - intros before d after -> Hb Hd.
    now rewrite (report_loop_raises before d after Hb Hd).
Qed.

End ReportSeriesFacts.

(** * The theorems at concrete inputs *)


Lemma nakamoto_monotone_in_threshold_witness :
  let w : list Q := [70; 10; 10; 10] in
  let t1 : Q := 3 # 10 in
  let t2 : Q := 9 # 10 in
  (Analyze.nakamoto w t1 <= Analyze.nakamoto w t2)%nat.
Proof.
  intros w t1 t2.
  apply (nakamoto_monotone_in_threshold w t1 t2).
  - repeat constructor; vm_compute; discriminate.
  - reflexivity.
  - vm_compute; discriminate.
  - vm_compute; discriminate.
Defined.


Lemma by_address_merges_equal_sets_witness :
  let validators := [validator_of "n1" "X" 5 0 5; validator_of "n2" "X" 6 1 7] in
  Forall has_basic_fields validators /\
  exists entities,
    Analyze.by_address validators = Py.Ok entities /\
    NoDup (map Analyze.e_rewardAddresses entities).
Proof.
  intros validators.
  assert (Hfs : Forall has_basic_fields validators)
    by (repeat (constructor || eexists)).
  split; [exact Hfs|].
  destruct (by_address_merges_equal_sets validators Hfs) as (es & Hok & Hnd & _).
  exists es. split; [exact Hok | exact Hnd].
Defined.

Lemma grouping_conserves_stake_witness :
  let validators := [validator_of "n1" "X" 5 0 5; validator_no_address "n2" 7] in
  Forall has_basic_fields validators /\
  exists entities,
    Analyze.by_address validators = Py.Ok entities /\
    sum_Z (map Analyze.e_totalWeight entities) = sum_Z (map total_weight validators).
Proof.
  intros validators.
  assert (Hfs : Forall has_basic_fields validators)
    by (repeat (constructor || eexists)).
  split; [exact Hfs|].
  destruct (grouping_conserves_stake (fun _ => EmptyString) validators) as [_ H].
  destruct (H Hfs) as (es & Hok & _ & Hsum).
  exists es. split; [exact Hok | exact Hsum].
Defined.


Lemma seeded_generators_deterministic_witness :
  Stakes.gini_33 Z toy_seeded toy_uniform 1%Z 1%Z [1; 2] =
  Stakes.gini_33 Z toy_seeded toy_uniform 1%Z 2%Z [1; 2].
Proof.
  apply (seeded_generators_deterministic Z toy_seeded toy_uniform 1%Z 1%Z 2%Z [1; 2]).
  discriminate.
Defined.





Lemma gini_undefined_iff_witness :
  let a : list Q := [0; 0] in
  Analyze.gini a = None.
Proof.
  intros a.
  assert (Ha : nonneg a) by (repeat (constructor; [lra|]); constructor).
  apply (proj2 (gini_undefined_iff a) Ha). split; [discriminate|].
  repeat (constructor; [reflexivity|]). constructor.
Defined.

Lemma entities_in_order_of_first_occurrence_witness :
  exists entities,
    Analyze.by_address toy_validators = Py.Ok entities /\
    map Analyze.e_rewardAddresses entities =
    first_occurrences (map address_set toy_validators).
Proof.
  assert (H : exists entities, Analyze.by_address toy_validators = Py.Ok entities)
    by (eexists; vm_compute; reflexivity).
  destruct H as [entities H]. exists entities. split; [exact H|].
  exact (proj1 (entities_in_order_of_first_occurrence
                  (fun _ => EmptyString) toy_validators) entities H).
Defined.








Lemma basic_groupers_agree_witness :
  exists entities,
    fst (Stakes.by_address toy_validators []) = Py.Ok entities /\
    Analyze.by_address toy_validators = Py.Ok (map renamed entities).
Proof.
  apply (basic_groupers_agree toy_validators).
  repeat (constructor; [repeat (split || eexists)|]). constructor.
Defined.





Lemma report_series_outcomes_witness :
  let listdir := ["2024-03-31"; "2024-06-30"]%string in
  (exists results,
     NakamotoSet.analyze_all_quarterly toy_str toy_ext_snapshots toy_set_order
       toy_items_order ["2024-03-31"]%string (fun _ => true) =
     (NakamotoSet.Returned results, [announced "2024-03-31"]) /\
     map NakamotoSet.date results = ["2024-03-31"]%string) /\
  NakamotoSet.analyze_all_quarterly toy_str toy_ext_snapshots toy_set_order
    toy_items_order listdir (fun _ => true) =
  (NakamotoSet.Raised NakamotoSet.ZeroDivisionError,
   [announced "2024-03-31"; announced "2024-06-30"]).
Proof.
  intros listdir.
  assert (Horder : forall s a, a ∈ toy_set_order s <-> a ∈ s)
    by (intros s a; apply elem_of_elements).
  split.
  - destruct (proj1 (report_series_outcomes toy_str toy_ext_snapshots
                       toy_set_order toy_items_order Horder
                       ["2024-03-31"]%string (fun _ => true)
                       ["2024-03-31"]%string eq_refl))
      as (results & Hret & _ & Hdates).
    + repeat constructor.
    + exists results. split; [exact Hret | exact Hdates].
  - apply (proj2 (report_series_outcomes toy_str toy_ext_snapshots
                    toy_set_order toy_items_order Horder
                    listdir (fun _ => true) listdir eq_refl)
             ["2024-03-31"]%string "2024-06-30"%string []).
    + reflexivity.
    + repeat constructor.
    + reflexivity.
Defined.
